(** * Guitar tuner: pitch estimation and tuning comparison

    A shallow embedding of [tuning_app.py]: [detect_pitch], [get_note_match],
    [create_tuning_meter], and the controls and the recording loop of [main].

    Numbers.  The program computes on binary64 floats.  Here a float is one
    of the IEEE special values (both infinities, NaN) or a finite value, and
    a finite value is a real number.  Two effects of the finite range are
    kept, because they change what is returned and not only its last digit:
    a quotient too small for the format rounds to zero, and an integer too
    large for the format cannot be converted.  Other rounding is not
    modelled, and neither is the sign of zero; the properties below say for
    which inputs they hold.  Comparisons with NaN are false, as in Python.

    Library code.  The transform of [scipy.fftpack.fft] and the magnitude of
    [np.abs] are computed in floating point, and which bin comes out largest
    can depend on their rounding.  [detect_pitch] therefore takes the two
    routines as a parameter; what is assumed of them is stated in
    [library_ok], and the exact transform is one instance.

    Failures.  A Python exception that leaves a function is an [Err] result
    carrying the exception's class. *)

From Stdlib Require Import Reals Lra Lia String ZArith Bool List.
Import ListNotations.
Open Scope R_scope.

(** ** Results and exceptions *)

Inductive exception : Type :=
| KeyError (key : string)
| ValueError
| ZeroDivisionError
| OverflowError.

Inductive result (A : Type) : Type :=
| Ok (a : A)
| Err (e : exception).
Arguments Ok {A} a.
Arguments Err {A} e.

Definition bind {A B : Type} (r : result A) (k : A -> result B) : result B :=
  match r with
  | Ok a => k a
  | Err e => Err e
  end.

Notation "x <- r ;; k" := (bind r (fun x => k))
  (at level 61, r at next level, right associativity).

(** ** Floats *)

Inductive float : Type :=
| Fin (x : R)
| PInf
| NInf
| NaN.

Definition Rltb (x y : R) : bool := if Rlt_dec x y then true else false.
Definition Rleb (x y : R) : bool := if Rle_dec x y then true else false.

(** [a < b] and [a <= b] on floats. *)
Definition flt (a b : float) : bool :=
  match a, b with
  | NaN, _ | _, NaN => false
  | Fin x, Fin y => Rltb x y
  | NInf, (Fin _ | PInf) => true
  | Fin _, PInf => true
  | _, _ => false
  end.

Definition fle (a b : float) : bool :=
  match a, b with
  | NaN, _ | _, NaN => false
  | Fin x, Fin y => Rleb x y
  | NInf, _ => true
  | _, PInf => true
  | _, _ => false
  end.

(** [abs(a)]. *)
Definition fabs (a : float) : float :=
  match a with
  | Fin x => Fin (Rabs x)
  | PInf | NInf => PInf
  | NaN => NaN
  end.

(** *** The ends of the binary64 range *)

(** The smallest positive float, [2^-1074] (about 4.9e-324). *)
Definition min_subnormal : R := / 2 ^ 1074.

(** Half of it, [2^-1075]: a quotient of at most this magnitude rounds to
    zero (exactly half is a tie, and zero is the even neighbour). *)
Definition underflow_limit : R := min_subnormal / 2.

(** The smallest positive float of full precision, [2^-1022]
    (about 2.2e-308). *)
Definition min_normal : R := / 2 ^ 1022.

(** The least magnitude of a Python int that [float()] refuses: halfway
    between the largest float and [2^1024], which rounds up to [2^1024]. *)
Definition float_int_limit : Z := 2 ^ 1024 - 2 ^ 970.

(** A bound on sample rates under which every step of [detect_pitch] stays
    inside the range of the format. *)
Definition max_rate : Z := 2 ^ 1023.

(** [a / y] for a finite, non-zero divisor [y]: the quotient rounds to zero
    when it is too small, and is kept as it is otherwise. *)
Definition fdiv_fin (a : float) (y : R) : float :=
  match a with
  | Fin x =>
      let q := x / y in
      if Rleb (Rabs q) underflow_limit then Fin 0 else Fin q
  | PInf => if Rltb 0 y then PInf else NInf
  | NInf => if Rltb 0 y then NInf else PInf
  | NaN => NaN
  end.

(** [k * a] for a finite, positive factor [k]. *)
Definition fmul_pos (k : R) (a : float) : float :=
  match a with
  | Fin x => Fin (k * x)
  | other => other
  end.

(** The base-2 logarithm of a positive real. *)
Definition log2 (x : R) : R := ln x / ln 2.

(** [np.log2]: minus infinity at zero and NaN below it, each with a
    [RuntimeWarning] only; no exception is raised. *)
Definition np_log2 (a : float) : float :=
  match a with
  | Fin x => if Rltb 0 x then Fin (log2 x)
             else if Rltb x 0 then NaN else NInf
  | PInf => PInf
  | NInf | NaN => NaN
  end.

(** Python's built-in [min(a, b)] and [max(a, b)]: the first argument is kept
    unless the second is strictly smaller (resp. larger). *)
Definition py_min (a b : float) : float := if flt b a then b else a.
Definition py_max (a b : float) : float := if flt a b then b else a.

(** [float(n)] for a Python int [n], as done by [a / n] with a float [a]. *)
Definition float_of_int (n : Z) : result R :=
  if (float_int_limit <=? Z.abs n)%Z then Err OverflowError else Ok (IZR n).

(** Python's float division [a / b]. *)
Definition py_div (a b : R) : result R :=
  if Req_dec_T b 0 then Err ZeroDivisionError else Ok (a / b).

(** Python's [a / n] for a float [a] and an int [n]. *)
Definition py_div_int (a : R) (n : Z) : result R :=
  b <- float_of_int n ;; py_div a b.

(** ** The note table *)

(** The dict [NOTES] of [get_note_match], in its insertion order. *)
Definition NOTES : list (string * R) :=
  [ ("E2"%string, 82.41);
    ("A2"%string, 110.00);
    ("D3"%string, 146.83);
    ("G3"%string, 196.00);
    ("B3"%string, 246.94);
    ("E4"%string, 329.63) ].

Fixpoint dict_get (d : list (string * R)) (key : string) : option R :=
  match d with
  | [] => None
  | (k, v) :: rest => if String.eqb k key then Some v else dict_get rest key
  end.

(** [d[key]]: a missing key raises [KeyError]. *)
Definition dict_index (d : list (string * R)) (key : string) : result R :=
  match dict_get d key with
  | Some v => Ok v
  | None => Err (KeyError key)
  end.

(** ** [get_note_match] *)

Definition get_note_match (frequency : float) (target_note : string)
  : result (R * float) :=
  target_freq <- dict_index NOTES target_note ;;
  let cents_off := fmul_pos 1200 (np_log2 (fdiv_fin frequency target_freq)) in
  Ok (target_freq, cents_off).

(** ** [create_tuning_meter] *)

(** What the figure shows of its argument: the x position of the needle,
    drawn between the axis limits [-50] and [50]. *)
Record figure : Type := mkFigure {
  needle : float;
  xlim : R * R
}.

Definition create_tuning_meter (cents : float) : figure :=
  let cents := py_max (py_min cents (Fin 50)) (Fin (-50)) in
  {| needle := cents; xlim := (-50, 50) |}.

(** ** The status selection of [main] *)

(** The three branches of the [if]/[elif]/[else] on [abs(cents)]:
    [PERFECT] is "Perfect!" (green), [CLOSE] is "Close!" (orange) and
    [OFF] is "Keep adjusting!" (red). *)
Inductive quality_band : Type := PERFECT | CLOSE | OFF.

Definition status_of (cents : float) : quality_band :=
  if fle (fabs cents) (Fin 5) then PERFECT
  else if fle (fabs cents) (Fin 15) then CLOSE
  else OFF.

(** ** Arrays and the spectrum *)

Definition C : Type := (R * R)%type.

Definition Cadd (a b : C) : C := (fst a + fst b, snd a + snd b).

(** The magnitude of a complex number. *)
Definition Cabs (a : C) : R := sqrt (fst a * fst a + snd a * snd a).

(** [np.arange(start, stop, step)] on integers, for a positive step. *)
Definition arange (start stop step : Z) : list Z :=
  map (fun i => (start + step * Z.of_nat i)%Z)
      (seq 0 (Z.to_nat ((stop - start + step - 1) / step))).

(** [np.hanning(M)]. *)
Definition hanning (M : nat) : list R :=
  match M with
  | O => []
  | S O => [1]
  | _ =>
      let n := arange (1 - Z.of_nat M) (Z.of_nat M) 2 in
      map (fun n => 0.5 + 0.5 * cos (PI * IZR n / IZR (Z.of_nat M - 1))) n
  end.

(** The product of two arrays of one length, element by element. *)
Fixpoint mul_arrays (a b : list R) : list R :=
  match a, b with
  | x :: a', y :: b' => x * y :: mul_arrays a' b'
  | _, _ => []
  end.

(** The terms of bin [k] of the discrete Fourier transform from sample
    index [n] on: the sum of [x[n] * exp(-2*pi*i*k*n/N)]. *)
Fixpoint dft_sum (x : list R) (N k n : nat) : C :=
  match x with
  | [] => (0, 0)
  | xn :: rest =>
      let angle := 2 * PI * INR k * INR n / INR N in
      Cadd (xn * cos angle, - (xn * sin angle)) (dft_sum rest N k (S n))
  end.

(** The discrete Fourier transform of a real array, without rounding. *)
Definition dft (x : list R) : list C :=
  map (fun k => dft_sum x (length x) k 0) (seq 0 (length x)).

(** The two numerical routines that [detect_pitch] calls: the transform that
    [scipy.fftpack.fft] computes for a non-empty real array, and the
    magnitude that [np.abs] computes for one complex number. *)
Record library : Type := mkLibrary {
  lib_fft : list R -> list C;
  lib_abs : C -> R
}.

(** What is taken for granted of the routines: the transform has one bin
    per sample, the transform of an all-zero array is all zero, and the
    magnitude of zero is zero. *)
Definition library_ok (lib : library) : Prop :=
  (forall y, length (lib_fft lib y) = length y) /\
  (forall n, lib_fft lib (repeat 0 n) = repeat (0, 0) n) /\
  lib_abs lib (0, 0) = 0.

(** The routines without rounding. *)
Definition exact_library : library :=
  {| lib_fft := dft; lib_abs := Cabs |}.

(** [scipy.fftpack.fft]: an empty array is refused with [ValueError]. *)
Definition fft (lib : library) (x : list R) : result (list C) :=
  match x with
  | [] => Err ValueError
  | _ => Ok (lib_fft lib x)
  end.

(** [np.fft.fftfreq(n, d)]. *)
Definition fftfreq (n : Z) (d : R) : result (list R) :=
  val <- py_div 1 (IZR n * d) ;;
  let N := ((n - 1) / 2 + 1)%Z in
  let p1 := arange 0 N 1 in
  let p2 := arange (- (n / 2)) 0 1 in
  Ok (map (fun j => IZR j * val) (p1 ++ p2)).

(** [np.argmax]: the index of the first occurrence of the maximum.
    [argmax_from best besti i l] scans [l], whose head has index [i]. *)
Fixpoint argmax_from (best : R) (besti i : nat) (l : list R) : nat :=
  match l with
  | [] => besti
  | x :: rest =>
      if Rltb best x then argmax_from x i (S i) rest
      else argmax_from best besti (S i) rest
  end.

Definition argmax (l : list R) : nat :=
  match l with
  | [] => O
  | x :: rest => argmax_from x 0 1 rest
  end.

(** ** [detect_pitch] *)

Definition detect_pitch (lib : library) (audio_data : list R)
    (sample_rate : Z) : result R :=
  let window := hanning (length audio_data) in
  let audio_data := mul_arrays audio_data window in
  fft_data <- fft lib audio_data ;;
  d <- py_div_int 1 sample_rate ;;
  freqs <- fftfreq (Z.of_nat (length fft_data)) d ;;
  let magnitude := map (lib_abs lib) fft_data in
  let peak_freq := nth (argmax magnitude) freqs 0 in
  Ok (Rabs peak_freq).

(** ** One cycle of the recording loop of [main] *)

(** What one cycle puts on the page. *)
Record page : Type := mkPage {
  meter : figure;
  status : quality_band;
  detected_frequency : R;
  expected_frequency : R;
  cents_off : float
}.

(** The display part of the loop body: the meter is drawn from [cents], then
    the status is chosen from the same variable [cents]. *)
Definition show_result (frequency expected_freq : R) (cents : float) : page :=
  let fig := create_tuning_meter cents in
  {| meter := fig;
     status := status_of cents;
     detected_frequency := frequency;
     expected_frequency := expected_freq;
     cents_off := cents |}.

Definition cycle (lib : library) (audio_data : list R) (SAMPLE_RATE : Z)
    (selected_note : string) : result page :=
  frequency <- detect_pitch lib audio_data SAMPLE_RATE ;;
  r <- get_note_match (Fin frequency) selected_note ;;
  let '(expected_freq, cents) := r in
  Ok (show_result frequency expected_freq cents).

(** ** Notions used to state the properties *)

(** The six open strings, lowest first. *)
Definition canonical_order : list string :=
  [ "E2"; "A2"; "D3"; "G3"; "B3"; "E4" ]%string.

Fixpoint strictly_increasing (l : list R) : Prop :=
  match l with
  | x :: ((y :: _) as rest) => x < y /\ strictly_increasing rest
  | _ => True
  end.

(** [-a]. *)
Definition fneg (a : float) : float :=
  match a with
  | Fin x => Fin (- x)
  | PInf => NInf
  | NInf => PInf
  | NaN => NaN
  end.

(** The expression of [create_tuning_meter] that places the needle. *)
Definition clamp (cents : float) : float :=
  py_max (py_min cents (Fin 50)) (Fin (-50)).

(** The Hann weight of sample [i] of [N], as the specification writes it. *)
Definition spec_hann (N i : nat) : R :=
  0.5 - 0.5 * cos (2 * PI * INR i / (INR N - 1)).


(** The magnitudes that [detect_pitch] computes for the bins of [y]. *)
Definition magnitudes (lib : library) (y : list R) : list R :=
  map (lib_abs lib) (lib_fft lib y).


(** The frequency of bin [k] as [np.fft.fftfreq] lays the bins out: [k*R/N]
    strictly below the middle, and the mirror [(k-N)*R/N] from the middle
    bin on. *)
Definition bin_freq (N : nat) (rate : Z) (k : nat) : R :=
  if (2 * k <? N)%nat then INR k * IZR rate / INR N
  else (INR k - INR N) * IZR rate / INR N.

(** [k] is the index of the first occurrence of the maximum of [l]. *)
Definition first_max (l : list R) (k : nat) : Prop :=
  (k < length l)%nat /\
  (forall j, (j < length l)%nat -> nth j l 0 <= nth k l 0) /\
  (forall j, (j < k)%nat -> nth j l 0 < nth k l 0).

(** The needle is on the scale of the meter. *)
Definition on_scale (a : float) : Prop :=
  fle (Fin (-50)) a = true /\ fle a (Fin 50) = true.

(** ** The background of the meter *)

(** One [ax.axvspan(lo, hi, color=c, alpha=0.3)] of [create_tuning_meter]. *)
Record span : Type := mkSpan {
  span_lo : R;
  span_hi : R;
  span_color : string
}.

Definition colors : list string :=
  [ "#ff6b6b"; "#ffd93d"; "#6bff6b"; "#ffd93d"; "#ff6b6b" ]%string.

(** The two spans painted by iteration [i] of the loop. *)
Definition spans_of_iteration (i : nat) : list span :=
  [ {| span_lo := -50 + 25 * INR i; span_hi := -25 + 25 * INR i;
       span_color := nth i colors EmptyString |};
    {| span_lo := -25 + 25 * INR i; span_hi := 0 + 25 * INR i;
       span_color := nth (i + 1) colors EmptyString |} ].

(** The spans of [for i in range(4)], in the order they are painted. *)
Definition background : list span := flat_map spans_of_iteration (seq 0 4).

(** The span lies under the x position [v]. *)
Definition under (v : R) (s : span) : Prop := span_lo s <= v <= span_hi s.

(** ** The session state and the controls of [main] *)

(** The two entries of [st.session_state] that [main] writes, as a run of
    the script finds them: each is missing until a run has set it. *)
Record stored : Type := mkStored {
  stored_recording : option bool;
  stored_note : option string
}.

(** The same two entries once [main] has initialised them. *)
Record session : Type := mkSession {
  is_recording : bool;
  selected_note : string
}.

(** What the next run of the script finds. *)
Definition store (st : session) : stored :=
  {| stored_recording := Some (is_recording st);
     stored_note := Some (selected_note st) |}.

(** The list the selection loop of [main] runs over. *)
Definition note_keys : list string :=
  [ "E2"; "A2"; "D3"; "G3"; "B3"; "E4" ]%string.

(** [for note in [...]: if st.session_state.get(note):
    st.session_state.selected_note = note].  [pressed key] is the truth
    value of [st.session_state.get(key)], the state of the button with that
    key. *)
Definition select_note (pressed : string -> bool) (keys : list string)
    (selected : string) : string :=
  fold_left (fun selected note => if pressed note then note else selected)
            keys selected.

(** [main] up to the recording loop.  [start] and [stop] are what the two
    recording buttons return. *)
Definition controls (pressed : string -> bool) (start stop : bool)
    (found : stored) : session :=
  let is_recording :=
    match stored_recording found with
    | Some b => b
    | None => false
    end in
  let selected_note :=
    match stored_note found with
    | Some note => note
    | None => "E2"%string
    end in
  let selected_note := select_note pressed note_keys selected_note in
  let is_recording := if start then true else is_recording in
  let is_recording := if stop then false else is_recording in
  {| is_recording := is_recording; selected_note := selected_note |}.

(** How far a run of the recording loop got. *)
Inductive loop_outcome : Type :=
| Ready (shown : list page)
| Raised (shown : list page) (e : exception)
| Listening (shown : list page).

(** [while st.session_state.is_recording: ...], for at most [fuel] turns.
    [recorded i] is the buffer that [sd.rec] returns in turn [i]; [shown]
    collects the pages in the order they are put up, most recent first.
    [Ready] is the line after the loop; [Listening] is a loop that has not
    ended after [fuel] turns. *)
Fixpoint recording_loop (fuel : nat) (lib : library) (st : session)
    (SAMPLE_RATE : Z) (recorded : nat -> list R) (turn : nat)
    (shown : list page) : loop_outcome :=
  if is_recording st then
    match fuel with
    | O => Listening shown
    | S fuel' =>
        match cycle lib (recorded turn) SAMPLE_RATE (selected_note st) with
        | Ok p =>
            recording_loop fuel' lib st SAMPLE_RATE recorded (S turn)
                           (p :: shown)
        | Err e => Raised shown e
        end
    end
  else Ready shown.

(** The sessions that runs of the script can leave, from a fresh one on. *)
Inductive reachable : session -> Prop :=
| reach_first pressed start stop :
    reachable (controls pressed start stop
                 {| stored_recording := None; stored_note := None |})
| reach_rerun st pressed start stop :
    reachable st -> reachable (controls pressed start stop (store st)).


(** * Properties *)

(** ** Comparisons *)

Lemma Rltb_true x y : Rltb x y = true <-> x < y.
Proof. unfold Rltb. destruct (Rlt_dec x y); split; intros; auto; discriminate. Qed.

Lemma Rltb_false x y : Rltb x y = false <-> y <= x.
Proof.
  unfold Rltb. destruct (Rlt_dec x y); split; intros; auto; try discriminate; lra.
Qed.

Lemma Rleb_true x y : Rleb x y = true <-> x <= y.
Proof. unfold Rleb. destruct (Rle_dec x y); split; intros; auto; discriminate. Qed.

Lemma Rleb_false x y : Rleb x y = false <-> y < x.
Proof.
  unfold Rleb. destruct (Rle_dec x y); split; intros; auto; try discriminate; lra.
Qed.

(** Decides a comparison of two real expressions that [lra] can settle. *)
Ltac cmp :=
  repeat match goal with
  | |- context [Rltb ?a ?b] =>
      let E := fresh "E" in
      destruct (Rltb a b) eqn:E;
      [ apply Rltb_true in E | apply Rltb_false in E ]
  | |- context [Rleb ?a ?b] =>
      let E := fresh "E" in
      destruct (Rleb a b) eqn:E;
      [ apply Rleb_true in E | apply Rleb_false in E ]
  end.

Lemma Rltb_yes x y : x < y -> Rltb x y = true.
Proof. apply Rltb_true. Qed.

Lemma Rltb_no x y : y <= x -> Rltb x y = false.
Proof. apply Rltb_false. Qed.

Lemma Rleb_yes x y : x <= y -> Rleb x y = true.
Proof. apply Rleb_true. Qed.

Lemma Rleb_no x y : y < x -> Rleb x y = false.
Proof. apply Rleb_false. Qed.

(** ** The note table *)

Lemma dict_get_NOTES_inv key v :
  dict_get NOTES key = Some v ->
  (key = "E2"%string /\ v = 82.41) \/ (key = "A2"%string /\ v = 110.00) \/
  (key = "D3"%string /\ v = 146.83) \/ (key = "G3"%string /\ v = 196.00) \/
  (key = "B3"%string /\ v = 246.94) \/ (key = "E4"%string /\ v = 329.63).
Proof.
  unfold NOTES, dict_get.
  repeat match goal with
  | |- context [String.eqb ?a key] =>
      let E := fresh "E" in
      destruct (String.eqb a key) eqn:E;
      [ apply String.eqb_eq in E; subst key; intros [= <-]; tauto | ]
  end.
  discriminate.
Qed.

Lemma NOTES_positive key v : dict_get NOTES key = Some v -> 0 < v.
Proof.
  intros H. apply dict_get_NOTES_inv in H.
  repeat destruct H as [H | H]; destruct H as [_ ->]; lra.
Qed.

Lemma dict_get_not_in (d : list (string * R)) key :
  ~ In key (map fst d) -> dict_get d key = None.
Proof.
  induction d as [| [k v] rest IH]; simpl; intros Hnot; [reflexivity |].
  destruct (String.eqb k key) eqn:E.
  - apply String.eqb_eq in E. tauto.
  - apply IH. tauto.
Qed.

(** C7.  The note table holds exactly the six keys E2, A2, D3, G3, B3, E4,
    in that order, mapped to 82.41, 110.00, 146.83, 196.00, 246.94 and
    329.63 Hz; no other key is present, and the frequencies are strictly
    increasing in that order. *)
Theorem NOTES_contents :
  map fst NOTES = canonical_order /\
  dict_get NOTES "E2" = Some 82.41 /\
  dict_get NOTES "A2" = Some 110.00 /\
  dict_get NOTES "D3" = Some 146.83 /\
  dict_get NOTES "G3" = Some 196.00 /\
  dict_get NOTES "B3" = Some 246.94 /\
  dict_get NOTES "E4" = Some 329.63 /\
  (forall key, ~ In key canonical_order -> dict_get NOTES key = None) /\
  strictly_increasing (map snd NOTES).
Proof.
  do 7 (split; [reflexivity |]).
  split.
  - intros key Hnot. apply dict_get_not_in. exact Hnot.
  - simpl. repeat split; lra.
Qed.

(** ** The ends of the range *)

Lemma min_subnormal_pos : 0 < min_subnormal.
Proof. unfold min_subnormal. apply Rinv_0_lt_compat, pow_lt. lra. Qed.

Lemma underflow_limit_pos : 0 < underflow_limit.
Proof. unfold underflow_limit. pose proof min_subnormal_pos. lra. Qed.


Lemma min_subnormal_lt_normal : min_subnormal < min_normal.
Proof.
  unfold min_subnormal, min_normal.
  apply Rinv_lt_contravar.
  - apply Rmult_lt_0_compat; apply pow_lt; lra.
  - apply Rlt_pow; [lra | lia].
Qed.

Lemma underflow_below_normal : underflow_limit < min_normal.
Proof.
  unfold underflow_limit.
  pose proof min_subnormal_pos. pose proof min_subnormal_lt_normal. lra.
Qed.

Lemma min_normal_le_1 : min_normal <= 1.
Proof.
  unfold min_normal. rewrite <- Rinv_1.
  apply Rinv_le_contravar; [lra |].
  apply pow_R1_Rle. lra.
Qed.

Lemma max_rate_below_limit : (max_rate < float_int_limit)%Z.
Proof. reflexivity. Qed.

Lemma below_max_rate (n : Z) :
  (Z.abs n < max_rate)%Z -> (Z.abs n < float_int_limit)%Z.
Proof. intros H. eapply Z.lt_trans; [exact H | apply max_rate_below_limit]. Qed.

Lemma float_of_int_in_range (n : Z) :
  (Z.abs n < float_int_limit)%Z -> float_of_int n = Ok (IZR n).
Proof.
  intros H. unfold float_of_int.
  destruct (Z.leb_spec float_int_limit (Z.abs n)) as [Hge | _]; [| reflexivity].
  exfalso. apply (Z.lt_irrefl (Z.abs n)).
  eapply Z.lt_le_trans; [exact H | exact Hge].
Qed.

Lemma fdiv_fin_kept (x y : R) :
  underflow_limit < Rabs (x / y) -> fdiv_fin (Fin x) y = Fin (x / y).
Proof. intros H. simpl. rewrite Rleb_no by exact H. reflexivity. Qed.

Lemma fdiv_fin_underflow (x y : R) :
  Rabs (x / y) <= underflow_limit -> fdiv_fin (Fin x) y = Fin 0.
Proof. intros H. simpl. rewrite Rleb_yes by exact H. reflexivity. Qed.

(** ** [get_note_match] *)

Lemma ln2_pos : 0 < ln 2.
Proof. rewrite <- ln_1. apply ln_increasing; lra. Qed.

Lemma log2_1 : log2 1 = 0.
Proof. unfold log2. rewrite ln_1. pose proof ln2_pos. field. lra. Qed.

Lemma log2_2 : log2 2 = 1.
Proof. unfold log2. pose proof ln2_pos. field. lra. Qed.

Lemma log2_increasing x y : 0 < x -> x < y -> log2 x < log2 y.
Proof.
  intros Hx Hxy. unfold log2.
  apply Rmult_lt_compat_r.
  - apply Rinv_0_lt_compat, ln2_pos.
  - apply ln_increasing; assumption.
Qed.

Lemma get_note_match_known (a : float) note f_t :
  dict_get NOTES note = Some f_t ->
  get_note_match a note = Ok (f_t, fmul_pos 1200 (np_log2 (fdiv_fin a f_t))).
Proof. intros H. unfold get_note_match, dict_index. rewrite H. reflexivity. Qed.

(** A quotient that does not round to zero. *)
Lemma get_note_match_positive f note f_t :
  underflow_limit < f / f_t -> dict_get NOTES note = Some f_t ->
  get_note_match (Fin f) note = Ok (f_t, Fin (1200 * log2 (f / f_t))).
Proof.
  intros Hq H. rewrite (get_note_match_known _ _ _ H).
  pose proof underflow_limit_pos as Hu.
  rewrite fdiv_fin_kept by (rewrite Rabs_pos_eq; lra).
  simpl. rewrite Rltb_yes by lra. reflexivity.
Qed.

(** A quotient that rounds to zero. *)
Lemma get_note_match_underflow f note f_t :
  Rabs (f / f_t) <= underflow_limit -> dict_get NOTES note = Some f_t ->
  get_note_match (Fin f) note = Ok (f_t, NInf).
Proof.
  intros Hq H. rewrite (get_note_match_known _ _ _ H).
  rewrite fdiv_fin_underflow by exact Hq.
  simpl. rewrite !Rltb_no by lra. reflexivity.
Qed.

(** A negative quotient that does not round to zero. *)
Lemma get_note_match_negative f note f_t :
  f / f_t < - underflow_limit -> dict_get NOTES note = Some f_t ->
  get_note_match (Fin f) note = Ok (f_t, NaN).
Proof.
  intros Hq H. rewrite (get_note_match_known _ _ _ H).
  pose proof underflow_limit_pos as Hu.
  rewrite fdiv_fin_kept by (rewrite Rabs_left; lra).
  simpl. rewrite Rltb_no by lra. rewrite Rltb_yes by lra. reflexivity.
Qed.

Lemma ratio_pos f f_t : 0 < f_t -> 0 < f -> 0 < f / f_t.
Proof. intros. apply Rdiv_lt_0_compat; assumption. Qed.

Lemma ratio_lt f1 f2 f_t : 0 < f_t -> f1 < f2 -> f1 / f_t < f2 / f_t.
Proof.
  intros Ht H. unfold Rdiv. apply Rmult_lt_compat_r; [| exact H].
  apply Rinv_0_lt_compat, Ht.
Qed.

Lemma ratio_self f_t : 0 < f_t -> f_t / f_t = 1.
Proof. intros. field. lra. Qed.

Lemma cents_increasing f1 f2 f_t :
  0 < f_t -> 0 < f1 -> f1 < f2 ->
  1200 * log2 (f1 / f_t) < 1200 * log2 (f2 / f_t).
Proof.
  intros Ht H1 H12. apply Rmult_lt_compat_l; [lra |].
  apply log2_increasing.
  - apply Rdiv_lt_0_compat; assumption.
  - apply ratio_lt; assumption.
Qed.

Lemma cents_at_target f_t : 0 < f_t -> 1200 * log2 (f_t / f_t) = 0.
Proof.
  intros Ht. rewrite ratio_self by exact Ht. rewrite log2_1. lra.
Qed.







(** C10, as stated, fails for the smallest positive frequencies: for the
    note E4 the frequencies [2^-1074] and [2^-1073] Hz both give minus
    infinity, so the deviation of the lower one is not strictly less. *)
Lemma get_note_match_not_strict :
  0 < min_subnormal /\ min_subnormal < 2 * min_subnormal /\
  get_note_match (Fin min_subnormal) "E4" = Ok (329.63, NInf) /\
  get_note_match (Fin (2 * min_subnormal)) "E4" = Ok (329.63, NInf) /\
  flt NInf NInf = false.
Proof.
  pose proof min_subnormal_pos as Hm.
  split; [exact Hm |]. split; [lra |].
  split; [| split; [| reflexivity]];
    (apply get_note_match_underflow; [| reflexivity]);
    (rewrite Rabs_pos_eq by (apply Rlt_le, ratio_pos; lra));
    unfold underflow_limit; lra.
Qed.

(** The deviation of a positive frequency, by the size of the quotient. *)
Lemma get_note_match_of_positive f note f_t :
  0 < f -> dict_get NOTES note = Some f_t ->
  (f / f_t <= underflow_limit /\
   get_note_match (Fin f) note = Ok (f_t, NInf)) \/
  (underflow_limit < f / f_t /\
   get_note_match (Fin f) note = Ok (f_t, Fin (1200 * log2 (f / f_t)))).
Proof.
  intros Hf H. pose proof (NOTES_positive _ _ H) as Ht.
  pose proof (ratio_pos f f_t Ht Hf) as Hq.
  destruct (Rle_lt_dec (f / f_t) underflow_limit) as [Hu | Hk].
  - left. split; [exact Hu |].
    apply get_note_match_underflow; [| exact H].
    rewrite Rabs_pos_eq by lra. exact Hu.
  - right. split; [exact Hk |].
    apply get_note_match_positive; assumption.
Qed.

(** C10, amended.  For a note of the table and frequencies [0 < f1 < f2],
    the deviation computed for [f1] is never above the one computed for
    [f2]: either it is minus infinity, or both are finite and in order;
    the deviation is negative (possibly minus infinity) below the target,
    zero at it and positive above it. *)
Theorem get_note_match_increasing (note : string) (f_t f1 f2 : R) :
  dict_get NOTES note = Some f_t -> 0 < f1 -> f1 < f2 ->
  exists c1 c2 : float,
    get_note_match (Fin f1) note = Ok (f_t, c1) /\
    get_note_match (Fin f2) note = Ok (f_t, c2) /\
    (c1 = NInf \/ exists r1 r2, c1 = Fin r1 /\ c2 = Fin r2 /\ r1 <= r2) /\
    (f1 < f_t -> c1 = NInf \/ exists r1, c1 = Fin r1 /\ r1 < 0) /\
    (f1 = f_t -> c1 = Fin 0) /\
    (f_t < f1 -> exists r1, c1 = Fin r1 /\ 0 < r1).
Proof.
  intros H H1 H12. pose proof (NOTES_positive _ _ H) as Ht.
  assert (H2 : 0 < f2) by lra.
  pose proof (ratio_lt f1 f2 f_t Ht H12) as Hq12.
  pose proof (cents_at_target f_t Ht) as H0.
  pose proof min_normal_le_1 as Hn1.
  pose proof underflow_below_normal as Hun.
  destruct (get_note_match_of_positive f1 note f_t H1 H) as [[Hu1 E1] | [Hk1 E1]];
    destruct (get_note_match_of_positive f2 note f_t H2 H) as [[Hu2 E2] | [Hk2 E2]];
    try (exfalso; lra);
    eexists; eexists; (split; [exact E1 |]); (split; [exact E2 |]).
  - split; [left; reflexivity |]. split; [left; reflexivity |].
    assert (Hlow : f1 / f_t < 1) by lra.
    split; intros Hcmp; exfalso.
    + subst f1. rewrite ratio_self in Hlow by exact Ht. lra.
    + pose proof (ratio_lt f_t f1 f_t Ht Hcmp) as Hr.
      rewrite ratio_self in Hr by exact Ht. lra.
  - split; [left; reflexivity |]. split; [left; reflexivity |].
    assert (Hlow : f1 / f_t < 1) by lra.
    split; intros Hcmp; exfalso.
    + subst f1. rewrite ratio_self in Hlow by exact Ht. lra.
    + pose proof (ratio_lt f_t f1 f_t Ht Hcmp) as Hr.
      rewrite ratio_self in Hr by exact Ht. lra.
  - pose proof (cents_increasing f1 f2 f_t Ht H1 H12) as Hinc.
    split; [right; eexists; eexists; repeat split; lra |].
    split; [| split].
    + intros Hlt. right. eexists. split; [reflexivity |].
      pose proof (cents_increasing f1 f_t f_t Ht H1 Hlt). lra.
    + intros ->. rewrite H0. reflexivity.
    + intros Hgt. eexists. split; [reflexivity |].
      pose proof (cents_increasing f_t f1 f_t Ht Ht Hgt). lra.
Qed.

Lemma get_note_match_increasing_witness :
  dict_get NOTES "E4" = Some 329.63 /\ 0 < 300 /\ 300 < 340 /\
  exists c1 c2 : float,
    get_note_match (Fin 300) "E4" = Ok (329.63, c1) /\
    get_note_match (Fin 340) "E4" = Ok (329.63, c2) /\
    (c1 = NInf \/ exists r1 r2, c1 = Fin r1 /\ c2 = Fin r2 /\ r1 <= r2).
Proof.
  split; [reflexivity |]. split; [lra |]. split; [lra |].
  destruct (get_note_match_increasing "E4" 329.63 300 340)
    as (c1 & c2 & E1 & E2 & Hle & _); [reflexivity | lra | lra |].
  exists c1, c2. split; [exact E1 |]. split; [exact E2 | exact Hle].
Defined.

(** C6.  For a target note that is not a key of the table the comparator
    fails, whatever the frequency: the lookup raises [KeyError] (the error
    the specification calls UnknownNote) before anything is computed. *)
Theorem get_note_match_unknown_note (frequency : float) (note : string) :
  dict_get NOTES note = None ->
  get_note_match frequency note = Err (KeyError note).
Proof.
  intros H. unfold get_note_match, dict_index. rewrite H. reflexivity.
Qed.

Lemma get_note_match_unknown_note_witness :
  dict_get NOTES "C4" = None /\
  get_note_match (Fin 261.63) "C4" = Err (KeyError "C4").
Proof.
  split; [reflexivity |].
  apply (get_note_match_unknown_note (Fin 261.63) "C4"). reflexivity.
Defined.

Lemma get_note_match_at_zero (note : string) (f_t : R) :
  dict_get NOTES note = Some f_t ->
  get_note_match (Fin 0) note = Ok (f_t, NInf).
Proof.
  intros H. apply get_note_match_underflow; [| exact H].
  unfold Rdiv. rewrite Rmult_0_l, Rabs_R0.
  apply Rlt_le, underflow_limit_pos.
Qed.

(** C5, as stated, fails at 0 Hz: for the note A2 the comparator returns the
    pair of 110.00 and minus infinity, and no error. *)
Lemma get_note_match_zero_no_error :
  get_note_match (Fin 0) "A2" = Ok (110.00, NInf) /\
  forall e, get_note_match (Fin 0) "A2" <> Err e.
Proof.
  assert (H : get_note_match (Fin 0) "A2" = Ok (110.00, NInf))
    by (apply get_note_match_at_zero; reflexivity).
  split; [exact H |]. intros e He. rewrite H in He. discriminate.
Qed.

(** What the comparator returns when the logarithm has no finite value. *)
Lemma get_note_match_log_undefined (f : R) (note : string) (f_t : R) :
  f <= 0 -> dict_get NOTES note = Some f_t ->
  exists cents,
    get_note_match (Fin f) note = Ok (f_t, cents) /\
    (cents = NInf \/ cents = NaN).
Proof.
  intros Hf H. pose proof (NOTES_positive _ _ H) as Ht.
  assert (Hq : f / f_t <= 0).
  { pose proof (Rinv_0_lt_compat _ Ht). unfold Rdiv. nra. }
  destruct (Rle_lt_dec (- underflow_limit) (f / f_t)) as [Hu | Hn].
  - exists NInf. split; [| left; reflexivity].
    apply get_note_match_underflow; [| exact H].
    rewrite Rabs_left1 by exact Hq. lra.
  - exists NaN. split; [| right; reflexivity].
    apply get_note_match_negative; assumption.
Qed.

(** C5, amended.  For a frequency [f <= 0] and a note of the table with
    target [f_t] the comparator raises nothing: it returns [f_t] with a
    deviation that is no number, minus infinity or NaN, and minus infinity
    at 0 Hz. *)
Theorem get_note_match_nonpositive (f : R) (note : string) (f_t : R) :
  f <= 0 -> dict_get NOTES note = Some f_t ->
  exists cents,
    get_note_match (Fin f) note = Ok (f_t, cents) /\
    (cents = NInf \/ cents = NaN) /\
    (f = 0 -> cents = NInf) /\
    (forall e, get_note_match (Fin f) note <> Err e).
Proof.
  intros Hf H.
  destruct (get_note_match_log_undefined f note f_t Hf H) as (cents & E & Hc).
  exists cents. split; [exact E |]. split; [exact Hc |]. split.
  - intros ->. rewrite (get_note_match_at_zero note f_t H) in E. congruence.
  - intros e He. rewrite E in He. discriminate He.
Qed.

Lemma get_note_match_nonpositive_witness :
  -5 <= 0 /\ dict_get NOTES "E2" = Some 82.41 /\
  exists cents,
    get_note_match (Fin (-5)) "E2" = Ok (82.41, cents) /\
    (cents = NInf \/ cents = NaN).
Proof.
  split; [lra |]. split; [reflexivity |].
  destruct (get_note_match_nonpositive (-5) "E2" 82.41)
    as (cents & E & Hc & _); [lra | reflexivity |].
  exists cents. split; [exact E | exact Hc].
Defined.

(** ** The status selection *)

Lemma flt_not_fle a b : flt a b = true -> fle b a = false.
Proof.
  destruct a, b; simpl; intros H; try discriminate; try reflexivity.
  apply Rltb_true in H. apply Rleb_no, H.
Qed.

Lemma fle_trans_fin a x y : fle a (Fin x) = true -> x <= y -> fle a (Fin y) = true.
Proof.
  destruct a; simpl; intros H Hxy; try discriminate; try reflexivity.
  apply Rleb_true in H. apply Rleb_yes. lra.
Qed.

Lemma flt_trans_fin a x y : flt (Fin y) a = true -> x <= y -> flt (Fin x) a = true.
Proof.
  destruct a; simpl; intros H Hxy; try discriminate; try reflexivity.
  apply Rltb_true in H. apply Rltb_yes. lra.
Qed.

Lemma fabs_fneg a : fabs (fneg a) = fabs a.
Proof. destruct a; simpl; try reflexivity. rewrite Rabs_Ropp. reflexivity. Qed.

Lemma status_of_beyond_15 (cents : float) :
  flt (Fin 15) (fabs cents) = true -> status_of cents = OFF.
Proof.
  intros H15. unfold status_of. rewrite (flt_not_fle _ _ H15).
  rewrite (flt_not_fle (Fin 5) (fabs cents)); [reflexivity |].
  apply (flt_trans_fin _ 5 15 H15). lra.
Qed.

Lemma status_of_fin_perfect (x : R) : Rabs x <= 5 -> status_of (Fin x) = PERFECT.
Proof. intros H. unfold status_of; simpl. rewrite Rleb_yes by exact H. reflexivity. Qed.

Lemma status_of_fin_close (x : R) :
  5 < Rabs x -> Rabs x <= 15 -> status_of (Fin x) = CLOSE.
Proof.
  intros H5 H15. unfold status_of; simpl.
  rewrite Rleb_no by exact H5. rewrite Rleb_yes by exact H15. reflexivity.
Qed.

Lemma status_of_fin_off (x : R) : 15 < Rabs x -> status_of (Fin x) = OFF.
Proof.
  intros H. apply status_of_beyond_15. simpl. apply Rltb_yes, H.
Qed.

(** C3.  The status chosen for a deviation is PERFECT when its absolute
    value is at most 5, CLOSE when it is above 5 and at most 15, and OFF when
    it is above 15, which is the case of both infinities; a deviation and
    its opposite get the same status.  (NaN satisfies none of the three
    conditions; its status is OFF.) *)
Theorem status_of_bands (cents : float) :
  match cents with
  | Fin x =>
      (Rabs x <= 5 -> status_of (Fin x) = PERFECT) /\
      (5 < Rabs x <= 15 -> status_of (Fin x) = CLOSE) /\
      (15 < Rabs x -> status_of (Fin x) = OFF) /\
      status_of (Fin (- x)) = status_of (Fin x)
  | PInf | NInf => status_of PInf = OFF /\ status_of NInf = OFF
  | NaN => status_of NaN = OFF
  end.
Proof.
  destruct cents as [x | | |].
  - split; [apply status_of_fin_perfect |].
    split; [intros [H5 H15]; apply status_of_fin_close; assumption |].
    split; [apply status_of_fin_off |].
    unfold status_of; simpl. rewrite Rabs_Ropp. reflexivity.
  - split; reflexivity.
  - split; reflexivity.
  - reflexivity.
Qed.

(** The boundary values: 5 and 15 belong to the tighter band, on both
    sides of zero. *)
Example status_of_boundaries :
  status_of (Fin 5) = PERFECT /\ status_of (Fin 5.0001) = CLOSE /\
  status_of (Fin 15) = CLOSE /\ status_of (Fin 15.0001) = OFF /\
  status_of (Fin (-5)) = PERFECT /\ status_of (Fin (-5.0001)) = CLOSE /\
  status_of (Fin (-15)) = CLOSE /\ status_of (Fin (-15.0001)) = OFF.
Proof.
  unfold status_of, fabs, fle.
  repeat split; unfold Rabs;
    match goal with |- context [Rcase_abs ?x] => destruct (Rcase_abs x) end;
    cmp; try reflexivity; lra.
Qed.

(** Without a number to compare, and at either infinity, the status is OFF. *)
Example status_of_special :
  status_of NaN = OFF /\ status_of PInf = OFF /\ status_of NInf = OFF.
Proof. repeat split. Qed.
(** ** The meter *)

Lemma needle_clamp cents : needle (create_tuning_meter cents) = clamp cents.
Proof. reflexivity. Qed.


Lemma clamp_beyond cents :
  flt (Fin 50) (fabs cents) = true ->
  clamp cents = Fin 50 \/ clamp cents = Fin (-50).
Proof.
  unfold clamp, py_min, py_max.
  destruct cents as [x | | |]; simpl; intros H; try discriminate.
  - apply Rltb_true in H.
    destruct (Rltb 50 x) eqn:E50; simpl.
    + rewrite Rltb_no by lra. left. reflexivity.
    + apply Rltb_false in E50.
      assert (Hx : x < -50).
      { unfold Rabs in H. destruct (Rcase_abs x); lra. }
      rewrite Rltb_yes by exact Hx. right. reflexivity.
  - rewrite Rltb_no by lra. left. reflexivity.
  - right. reflexivity.
Qed.

Lemma clamp_fin_cases (x : R) :
  (50 < x /\ clamp (Fin x) = Fin 50) \/
  (x < -50 /\ clamp (Fin x) = Fin (-50)) \/
  (-50 <= x <= 50 /\ clamp (Fin x) = Fin x).
Proof.
  unfold clamp, py_min, py_max; simpl.
  destruct (Rltb 50 x) eqn:E50; simpl.
  - apply Rltb_true in E50. left. split; [exact E50 |].
    rewrite Rltb_no by lra. reflexivity.
  - apply Rltb_false in E50. right.
    destruct (Rltb x (-50)) eqn:Em.
    + apply Rltb_true in Em. left. split; [exact Em | reflexivity].
    + apply Rltb_false in Em. right. split; [lra | reflexivity].
Qed.

Lemma clamp_inf : clamp PInf = Fin 50 /\ clamp NInf = Fin (-50).
Proof.
  unfold clamp, py_min, py_max; simpl.
  rewrite Rltb_no by lra. split; reflexivity.
Qed.

(** X11.  The status of the clamped deviation is the status of the
    deviation itself, for every float: the clamp at 50 cents lies beyond
    both thresholds, so it cannot move a deviation across one. *)
Theorem status_of_clamp (cents : float) :
  status_of (clamp cents) = status_of cents.
Proof.
  destruct cents as [x | | |].
  - destruct (clamp_fin_cases x) as [[Hx ->] | [[Hx ->] | [_ ->]]].
    + rewrite !status_of_fin_off; [reflexivity | |];
        unfold Rabs; destruct (Rcase_abs _); lra.
    + rewrite !status_of_fin_off; [reflexivity | |];
        unfold Rabs; destruct (Rcase_abs _); lra.
    + reflexivity.
  - destruct clamp_inf as [-> _].
    rewrite status_of_fin_off; [reflexivity |].
    unfold Rabs; destruct (Rcase_abs _); lra.
  - destruct clamp_inf as [_ ->].
    rewrite status_of_fin_off; [reflexivity |].
    unfold Rabs; destruct (Rcase_abs _); lra.
  - reflexivity.
Qed.

(** X12.  The clamp leaves a deviation that is on the scale as it is, and
    clamping twice is clamping once, for every float. *)
Theorem clamp_fixed_points (cents : float) :
  (on_scale cents -> clamp cents = cents) /\
  clamp (clamp cents) = clamp cents.
Proof.
  split.
  - intros [Hlo Hhi]. destruct cents as [x | | |]; try discriminate.
    simpl in Hlo, Hhi. apply Rleb_true in Hlo. apply Rleb_true in Hhi.
    destruct (clamp_fin_cases x) as [[Hx _] | [[Hx _] | [_ ->]]];
      [lra | lra | reflexivity].
  - assert (Hfix : forall v, -50 <= v <= 50 -> clamp (Fin v) = Fin v).
    { intros v Hv.
      destruct (clamp_fin_cases v) as [[Hx _] | [[Hx _] | [_ ->]]];
        [lra | lra | reflexivity]. }
    destruct cents as [x | | |].
    + destruct (clamp_fin_cases x) as [[_ ->] | [[_ ->] | [Hx ->]]];
        apply Hfix; lra.
    + destruct clamp_inf as [-> _]. apply Hfix; lra.
    + destruct clamp_inf as [_ ->]. apply Hfix; lra.
    + reflexivity.
Qed.

(** ** The background of the meter *)

Lemma background_spans :
  background =
  [ mkSpan (-50) (-25) "#ff6b6b"; mkSpan (-25) 0 "#ffd93d";
    mkSpan (-25) 0 "#ffd93d"; mkSpan 0 25 "#6bff6b";
    mkSpan 0 25 "#6bff6b"; mkSpan 25 50 "#ffd93d";
    mkSpan 25 50 "#ffd93d"; mkSpan 50 75 "#ff6b6b" ].
Proof.
  unfold background, spans_of_iteration. simpl.
  repeat (f_equal; try lra).
Qed.

(** X13.  Whatever the deviation, NaN apart, the needle is drawn at a
    finite position that lies under at least one painted span of the
    background. *)
Theorem needle_over_background (cents : float) :
  cents <> NaN ->
  exists (v : R) (s : span),
    needle (create_tuning_meter cents) = Fin v /\
    In s background /\ under v s.
Proof.
  intros Hnan. rewrite needle_clamp, background_spans.
  assert (Hcover : forall v, -50 <= v <= 50 ->
            exists s, In s
              [ mkSpan (-50) (-25) "#ff6b6b"; mkSpan (-25) 0 "#ffd93d";
                mkSpan (-25) 0 "#ffd93d"; mkSpan 0 25 "#6bff6b";
                mkSpan 0 25 "#6bff6b"; mkSpan 25 50 "#ffd93d";
                mkSpan 25 50 "#ffd93d"; mkSpan 50 75 "#ff6b6b" ] /\
              under v s).
  { intros v Hv. unfold under.
    destruct (Rle_dec v (-25)); [eexists; split; [left; reflexivity | simpl; lra] |].
    destruct (Rle_dec v 0);
      [eexists; split; [right; left; reflexivity | simpl; lra] |].
    destruct (Rle_dec v 25);
      [eexists; split; [do 3 right; left; reflexivity | simpl; lra] |].
    eexists; split; [do 5 right; left; reflexivity | simpl; lra]. }
  assert (Hgo : forall v, -50 <= v <= 50 -> forall a, clamp a = Fin v ->
            exists (v : R) (s : span), clamp a = Fin v /\
              In s
              [ mkSpan (-50) (-25) "#ff6b6b"; mkSpan (-25) 0 "#ffd93d";
                mkSpan (-25) 0 "#ffd93d"; mkSpan 0 25 "#6bff6b";
                mkSpan 0 25 "#6bff6b"; mkSpan 25 50 "#ffd93d";
                mkSpan 25 50 "#ffd93d"; mkSpan 50 75 "#ff6b6b" ] /\
              under v s).
  { intros v Hv a Ha. destruct (Hcover v Hv) as (s & Hin & Hs).
    exists v, s. auto. }
  destruct cents as [x | | |]; [| | | congruence].
  - destruct (clamp_fin_cases x) as [[_ H] | [[_ H] | [Hx H]]].
    + apply (Hgo 50); [lra | exact H].
    + apply (Hgo (-50)); [lra | exact H].
    + apply (Hgo x); [lra | exact H].
  - apply (Hgo 50); [lra | apply clamp_inf].
  - apply (Hgo (-50)); [lra | apply clamp_inf].
Qed.

Lemma needle_over_background_witness :
  Fin 7 <> NaN /\
  exists (v : R) (s : span),
    needle (create_tuning_meter (Fin 7)) = Fin v /\
    In s background /\ under v s.
Proof.
  split; [discriminate |].
  apply (needle_over_background (Fin 7)). discriminate.
Defined.

(** X14.  The status is symmetric around zero but the painted background is
    not: for a deviation from -5 to 5 the status is PERFECT and the needle
    is drawn at the deviation; every span under a needle right of zero is
    green, while every span under a needle left of zero is yellow. *)
Theorem perfect_needle_colors (c : R) :
  -5 <= c <= 5 ->
  status_of (Fin c) = PERFECT /\
  needle (create_tuning_meter (Fin c)) = Fin c /\
  (0 < c -> forall s, In s background -> under c s ->
            span_color s = "#6bff6b"%string) /\
  (c < 0 -> forall s, In s background -> under c s ->
            span_color s = "#ffd93d"%string).
Proof.
  intros Hc.
  split; [apply status_of_fin_perfect; unfold Rabs; destruct (Rcase_abs c); lra |].
  split.
  { rewrite needle_clamp.
    destruct (clamp_fin_cases c) as [[Hx _] | [[Hx _] | [_ ->]]];
      [lra | lra | reflexivity]. }
  rewrite background_spans. unfold under.
  split; intros Hsign s Hin Hs; simpl in Hin;
    repeat (destruct Hin as [<- | Hin]; [simpl in *; try reflexivity; lra |]);
    contradiction.
Qed.

Lemma perfect_needle_colors_witness :
  -5 <= -3 <= 5 /\ status_of (Fin (-3)) = PERFECT /\
  needle (create_tuning_meter (Fin (-3))) = Fin (-3).
Proof.
  split; [lra |].
  destruct (perfect_needle_colors (-3)) as (H1 & H2 & _); [lra |].
  split; [exact H1 | exact H2].
Defined.

(** ** Arrays *)

Lemma length_arange start stop step :
  length (arange start stop step)
  = Z.to_nat ((stop - start + step - 1) / step).
Proof. unfold arange. rewrite length_map, length_seq. reflexivity. Qed.

Lemma nth_arange start stop step i :
  (i < length (arange start stop step))%nat ->
  nth i (arange start stop step) 0%Z = (start + step * Z.of_nat i)%Z.
Proof.
  rewrite length_arange. intros Hi. unfold arange.
  set (f := fun j : nat => (start + step * Z.of_nat j)%Z).
  rewrite (nth_indep _ 0%Z (f O))
    by (rewrite length_map, length_seq; exact Hi).
  rewrite map_nth, seq_nth by exact Hi. reflexivity.
Qed.

Lemma length_arange_1 start stop :
  length (arange start stop 1) = Z.to_nat (stop - start).
Proof.
  rewrite length_arange. f_equal.
  replace (stop - start + 1 - 1)%Z with (stop - start)%Z by lia.
  apply Z.div_1_r.
Qed.

Lemma length_arange_hanning (M : nat) :
  length (arange (1 - Z.of_nat M) (Z.of_nat M) 2) = M.
Proof.
  rewrite length_arange.
  replace (Z.of_nat M - (1 - Z.of_nat M) + 2 - 1)%Z
    with (Z.of_nat M * 2)%Z by lia.
  rewrite Z.div_mul by lia. apply Nat2Z.id.
Qed.

Lemma length_hanning M : length (hanning M) = M.
Proof.
  destruct M as [| [| M]]; try reflexivity.
  unfold hanning. rewrite length_map. apply length_arange_hanning.
Qed.

Lemma length_mul_arrays a b :
  length a = length b -> length (mul_arrays a b) = length a.
Proof.
  revert b. induction a as [| x a IH]; intros [| y b]; simpl; intros H;
    try reflexivity; try discriminate.
  f_equal. apply IH. lia.
Qed.

Lemma nth_mul_arrays a b i :
  length a = length b -> (i < length a)%nat ->
  nth i (mul_arrays a b) 0 = nth i a 0 * nth i b 0.
Proof.
  revert b i. induction a as [| x a IH]; intros [| y b] i; simpl; intros H Hi;
    try lia; try discriminate.
  destruct i as [| i]; [reflexivity |]. apply IH; lia.
Qed.

(** The weights of [np.hanning] are those of the specification. *)
Lemma nth_hanning M i :
  (2 <= M)%nat -> (i < M)%nat -> nth i (hanning M) 0 = spec_hann M i.
Proof.
  intros HM Hi. destruct M as [| [| M]]; try lia.
  unfold hanning. remember (S (S M)) as N eqn:EN.
  set (w := fun n : Z => 0.5 + 0.5 * cos (PI * IZR n / IZR (Z.of_nat N - 1))).
  rewrite (nth_indep _ 0 (w 0%Z))
    by (rewrite length_map, length_arange_hanning; exact Hi).
  rewrite map_nth, nth_arange by (rewrite length_arange_hanning; exact Hi).
  unfold w, spec_hann.
  assert (HN : 0 < INR N - 1).
  { assert (2 <= INR N) by (apply (le_INR 2); lia). lra. }
  replace (IZR (Z.of_nat N - 1)) with (INR N - 1)
    by (rewrite minus_IZR, <- INR_IZR_INZ; reflexivity).
  replace (IZR (1 - Z.of_nat N + 2 * Z.of_nat i))
    with (2 * INR i - (INR N - 1))
    by (rewrite plus_IZR, minus_IZR, mult_IZR, <- !INR_IZR_INZ; lra).
  replace (PI * (2 * INR i - (INR N - 1)) / (INR N - 1))
    with (2 * PI * INR i / (INR N - 1) - PI) by (field; lra).
  rewrite cos_minus, cos_PI, sin_PI. lra.
Qed.

(** ** The frequency of each bin *)

Lemma fftfreq_split (N : nat) :
  (1 <= N)%nat ->
  let n1 := Z.to_nat ((Z.of_nat N - 1) / 2 + 1 - 0) in
  let n2 := Z.to_nat (0 - - (Z.of_nat N / 2)) in
  (n1 + n2 = N)%nat /\ forall k, (k < n1)%nat <-> (2 * k < N)%nat.
Proof.
  intros HN n1 n2. subst n1 n2.
  split; [| intros k]; Z.to_euclidean_division_equations; lia.
Qed.

Lemma length_fftfreq_ints (N : nat) :
  (1 <= N)%nat ->
  let n := Z.of_nat N in
  length (arange 0 ((n - 1) / 2 + 1) 1 ++ arange (- (n / 2)) 0 1) = N.
Proof.
  intros HN n. subst n. rewrite length_app, !length_arange_1.
  apply (fftfreq_split N HN).
Qed.

Lemma nth_fftfreq_ints (N k : nat) :
  (k < N)%nat ->
  let n := Z.of_nat N in
  nth k (arange 0 ((n - 1) / 2 + 1) 1 ++ arange (- (n / 2)) 0 1) 0%Z
  = if (2 * k <? N)%nat then Z.of_nat k else (Z.of_nat k - Z.of_nat N)%Z.
Proof.
  intros Hk n. subst n.
  assert (HN : (1 <= N)%nat) by lia.
  destruct (fftfreq_split N HN) as [Hsum Hlow].
  destruct (Nat.ltb_spec (2 * k) N) as [H | H].
  - rewrite app_nth1 by (rewrite length_arange_1; apply Hlow; exact H).
    rewrite nth_arange by (rewrite length_arange_1; apply Hlow; exact H).
    lia.
  - assert (Hge : (Z.to_nat ((Z.of_nat N - 1) / 2 + 1 - 0) <= k)%nat).
    { apply Nat.nlt_ge. intros Hlt. apply Hlow in Hlt. lia. }
    rewrite app_nth2 by (rewrite length_arange_1; exact Hge).
    rewrite length_arange_1.
    rewrite nth_arange by (rewrite length_arange_1; lia).
    Z.to_euclidean_division_equations; lia.
Qed.

Lemma INR_pos_of_le (N : nat) : (1 <= N)%nat -> 0 < INR N.
Proof. intros H. apply lt_0_INR. lia. Qed.

(** The array of bin frequencies that [detect_pitch] indexes. *)
Lemma fftfreq_bins (N : nat) (rate : Z) :
  (1 <= N)%nat -> rate <> 0%Z ->
  fftfreq (Z.of_nat N) (1 / IZR rate) = Ok (map (bin_freq N rate) (seq 0 N)).
Proof.
  intros HN Hrate.
  pose proof (INR_pos_of_le N HN) as HNpos.
  assert (Hr : IZR rate <> 0) by (apply not_0_IZR; exact Hrate).
  unfold fftfreq, py_div.
  rewrite <- INR_IZR_INZ.
  destruct (Req_dec_T (INR N * (1 / IZR rate)) 0) as [H0 | _].
  { exfalso. apply Rmult_integral in H0. destruct H0 as [H0 | H0]; [lra |].
    unfold Rdiv in H0. rewrite Rmult_1_l in H0.
    apply (Rinv_neq_0_compat _ Hr). exact H0. }
  simpl. f_equal.
  apply (nth_ext _ _ 0 0).
  - rewrite !length_map, length_seq. apply length_fftfreq_ints, HN.
  - intros k Hk. rewrite length_map, length_fftfreq_ints in Hk by exact HN.
    set (f := fun j : Z => IZR j * (1 / (INR N * (1 / IZR rate)))).
    rewrite (nth_indep _ 0 (f 0%Z))
      by (rewrite length_map, length_fftfreq_ints; assumption).
    rewrite map_nth, nth_fftfreq_ints by exact Hk.
    rewrite (nth_indep _ 0 (bin_freq N rate O))
      by (rewrite length_map, length_seq; exact Hk).
    rewrite map_nth, seq_nth by exact Hk. simpl (0 + k)%nat.
    unfold f, bin_freq.
    destruct (2 * k <? N)%nat.
    + rewrite <- INR_IZR_INZ. field. split; lra.
    + rewrite minus_IZR, <- !INR_IZR_INZ. field. split; lra.
Qed.

Lemma nth_bins (N : nat) (rate : Z) (k : nat) :
  (k < N)%nat ->
  nth k (map (bin_freq N rate) (seq 0 N)) 0 = bin_freq N rate k.
Proof.
  intros Hk.
  rewrite (nth_indep _ 0 (bin_freq N rate O))
    by (rewrite length_map, length_seq; exact Hk).
  rewrite map_nth, seq_nth by exact Hk. reflexivity.
Qed.

(** ** The first maximum *)

Lemma first_max_singleton x : first_max [x] 0.
Proof.
  unfold first_max; simpl. split; [lia |]. split.
  - intros [| j] Hj; [lra | lia].
  - intros j Hj. lia.
Qed.

Lemma first_max_unique l k k' : first_max l k -> first_max l k' -> k = k'.
Proof.
  intros (Hk & Hmax & Hfirst) (Hk' & Hmax' & Hfirst').
  destruct (Nat.lt_total k k') as [H | [H | H]]; [| exact H |].
  - pose proof (Hfirst' k H). pose proof (Hmax k' Hk'). lra.
  - pose proof (Hfirst k' H). pose proof (Hmax' k Hk). lra.
Qed.

Lemma argmax_from_first_max (rest pre : list R) (best : R) (besti : nat) :
  first_max pre besti -> best = nth besti pre 0 ->
  first_max (pre ++ rest) (argmax_from best besti (length pre) rest).
Proof.
  revert pre best besti.
  induction rest as [| x rest IH]; intros pre best besti Hfm Hbest; simpl.
  - rewrite app_nil_r. exact Hfm.
  - destruct Hfm as (Hlt & Hmax & Hfirst).
    replace (pre ++ x :: rest) with ((pre ++ [x]) ++ rest)
      by (rewrite <- app_assoc; reflexivity).
    replace (S (length pre)) with (length (pre ++ [x]))
      by (rewrite length_app; simpl; lia).
    destruct (Rltb best x) eqn:E.
    + apply Rltb_true in E. apply IH.
      * unfold first_max. rewrite length_app; simpl.
        rewrite (app_nth2 pre [x]) by lia. rewrite Nat.sub_diag; simpl.
        split; [lia |]. split.
        -- intros j Hj. destruct (Nat.eq_dec j (length pre)) as [-> | Hne].
           ++ rewrite app_nth2 by lia. rewrite Nat.sub_diag; simpl. lra.
           ++ rewrite app_nth1 by lia.
              assert (Hj' : (j < length pre)%nat) by lia.
              pose proof (Hmax j Hj'). lra.
        -- intros j Hj. rewrite app_nth1 by lia.
           pose proof (Hmax j Hj). lra.
      * rewrite app_nth2 by lia. rewrite Nat.sub_diag. reflexivity.
    + apply Rltb_false in E. apply IH.
      * unfold first_max. rewrite length_app; simpl.
        rewrite (app_nth1 pre [x] 0 Hlt).
        split; [lia |]. split.
        -- intros j Hj. destruct (Nat.eq_dec j (length pre)) as [-> | Hne].
           ++ rewrite app_nth2 by lia. rewrite Nat.sub_diag; simpl. lra.
           ++ rewrite app_nth1 by lia. apply Hmax. lia.
        -- intros j Hj. rewrite app_nth1 by lia. apply Hfirst, Hj.
      * rewrite app_nth1 by exact Hlt. exact Hbest.
Qed.

(** [np.argmax] returns the first index at which the maximum occurs. *)
Lemma argmax_first_max (l : list R) : l <> [] -> first_max l (argmax l).
Proof.
  destruct l as [| x rest]; [congruence | intros _].
  apply (argmax_from_first_max rest [x] x 0).
  - apply first_max_singleton.
  - reflexivity.
Qed.

(** ** [detect_pitch] *)

Lemma dft_sum_zeros (m N k n : nat) : dft_sum (repeat 0 m) N k n = (0, 0).
Proof.
  revert n. induction m as [| m IH]; intros n; simpl; [reflexivity |].
  rewrite IH. unfold Cadd; simpl. f_equal; lra.
Qed.

Lemma map_constant {A : Type} (c : A) (s n : nat) :
  map (fun _ : nat => c) (seq s n) = repeat c n.
Proof.
  revert s. induction n as [| n IH]; intros s; simpl; [reflexivity |].
  rewrite IH. reflexivity.
Qed.

Lemma dft_zeros (n : nat) : dft (repeat 0 n) = repeat (0, 0) n.
Proof.
  unfold dft. rewrite repeat_length.
  rewrite (map_ext _ (fun _ : nat => (0, 0))) by (intros k; apply dft_sum_zeros).
  apply map_constant.
Qed.

Lemma Cabs_0 : Cabs (0, 0) = 0.
Proof.
  unfold Cabs; simpl. replace (0 * 0 + 0 * 0) with 0 by lra. apply sqrt_0.
Qed.

(** The routines without rounding are as assumed. *)
Lemma exact_library_ok : library_ok exact_library.
Proof.
  split; [| split].
  - intros y. simpl. unfold dft. rewrite length_map, length_seq. reflexivity.
  - apply dft_zeros.
  - apply Cabs_0.
Qed.

Lemma fft_nonempty (lib : library) (y : list R) :
  y <> [] -> fft lib y = Ok (lib_fft lib y).
Proof. destruct y; [congruence | reflexivity]. Qed.

Lemma length_magnitudes (lib : library) (y : list R) :
  library_ok lib -> length (magnitudes lib y) = length y.
Proof. intros [Hlen _]. unfold magnitudes. rewrite length_map. apply Hlen. Qed.

Lemma length_windowed (x : list R) :
  length (mul_arrays x (hanning (length x))) = length x.
Proof. apply length_mul_arrays. rewrite length_hanning. reflexivity. Qed.

Lemma nonempty_length (x : list R) : x <> [] -> (1 <= length x)%nat.
Proof. destruct x; [congruence | simpl; lia]. Qed.

Lemma windowed_nonempty (x : list R) :
  x <> [] -> mul_arrays x (hanning (length x)) <> [].
Proof.
  intros Hx E. apply (f_equal (@length R)) in E.
  rewrite length_windowed in E. destruct x; [congruence | discriminate].
Qed.


Lemma py_div_int_in_range (rate : Z) :
  rate <> 0%Z -> (Z.abs rate < float_int_limit)%Z ->
  py_div_int 1 rate = Ok (1 / IZR rate).
Proof.
  intros Hr Hmax. unfold py_div_int.
  rewrite float_of_int_in_range by exact Hmax. cbn [bind].
  unfold py_div. destruct (Req_dec_T (IZR rate) 0) as [H0 | _]; [| reflexivity].
  exfalso. apply eq_IZR_R0 in H0. contradiction.
Qed.

Lemma py_div_int_zero : py_div_int 1 0 = Err ZeroDivisionError.
Proof.
  unfold py_div_int, float_of_int. simpl Z.abs.
  change (float_int_limit <=? 0)%Z with false. cbn [bind].
  unfold py_div. destruct (Req_dec_T (IZR 0) 0) as [_ | Hn]; [reflexivity |].
  exfalso. apply Hn. reflexivity.
Qed.

Lemma py_div_int_overflow (rate : Z) :
  (float_int_limit <= Z.abs rate)%Z -> py_div_int 1 rate = Err OverflowError.
Proof.
  intros H. unfold py_div_int, float_of_int.
  apply Z.leb_le in H. rewrite H. reflexivity.
Qed.

Lemma first_max_argmax (lib : library) (y : list R) :
  library_ok lib -> y <> [] ->
  first_max (magnitudes lib y) (argmax (magnitudes lib y)).
Proof.
  intros Hlib Hy. apply argmax_first_max.
  intros E. apply (f_equal (@length R)) in E.
  rewrite length_magnitudes in E by exact Hlib.
  destruct y; [congruence | discriminate].
Qed.

(** The value of [detect_pitch] on a non-empty buffer and a sample rate
    that can be inverted. *)
Lemma detect_pitch_peak (lib : library) (x : list R) (rate : Z) :
  library_ok lib -> x <> [] -> rate <> 0%Z ->
  (Z.abs rate < float_int_limit)%Z ->
  let y := mul_arrays x (hanning (length x)) in
  detect_pitch lib x rate
  = Ok (Rabs (bin_freq (length x) rate (argmax (magnitudes lib y)))).
Proof.
  intros Hlib Hx Hrate Hmax y. unfold detect_pitch. fold y.
  assert (Hlen : length y = length x) by apply length_windowed.
  assert (Hy : y <> []) by apply windowed_nonempty, Hx.
  rewrite (fft_nonempty lib y Hy). cbn [bind].
  rewrite (py_div_int_in_range rate Hrate Hmax). cbn [bind].
  destruct Hlib as (Hl & Hlib').
  rewrite Hl.
  rewrite (fftfreq_bins (length y) rate)
    by ((rewrite Hlen; apply nonempty_length, Hx) || exact Hrate).
  cbn [bind]. fold (magnitudes lib y).
  assert (Hk : (argmax (magnitudes lib y) < length y)%nat).
  { rewrite <- (length_magnitudes lib y (conj Hl Hlib')).
    apply first_max_argmax; [exact (conj Hl Hlib') | exact Hy]. }
  rewrite nth_bins by exact Hk. rewrite Hlen. reflexivity.
Qed.

Lemma Rabs_bin_freq_range (N : nat) (rate : Z) (k : nat) :
  (0 < rate)%Z -> (k < N)%nat ->
  0 <= Rabs (bin_freq N rate k) <= IZR rate / 2.
Proof.
  intros Hrate Hk. split; [apply Rabs_pos |].
  assert (HN : 0 < INR N) by (apply lt_0_INR; lia).
  assert (Hr : 0 < IZR rate) by (apply IZR_lt; exact Hrate).
  pose proof (pos_INR k) as Hk0.
  assert (HkN : INR k < INR N) by (apply lt_INR; exact Hk).
  assert (Hi : 0 < / INR N) by (apply Rinv_0_lt_compat; exact HN).
  unfold bin_freq. destruct (Nat.ltb_spec (2 * k) N) as [H | H].
  - assert (H2 : 2 * INR k < INR N).
    { apply lt_INR in H. rewrite mult_INR in H. simpl INR in H at 1. lra. }
    assert (Hp : 0 <= INR k * IZR rate) by (apply Rmult_le_pos; lra).
    rewrite Rabs_pos_eq by (unfold Rdiv; apply Rmult_le_pos; lra).
    apply (Rmult_le_reg_r (INR N)); [exact HN |].
    replace (INR k * IZR rate / INR N * INR N) with (INR k * IZR rate)
      by (field; lra).
    nra.
  - assert (H2 : INR N <= 2 * INR k).
    { apply le_INR in H. rewrite mult_INR in H. simpl INR in H at 2. lra. }
    assert (Hp : 0 <= (INR N - INR k) * IZR rate) by (apply Rmult_le_pos; lra).
    replace ((INR k - INR N) * IZR rate / INR N)
      with (- ((INR N - INR k) * IZR rate / INR N)) by (field; lra).
    rewrite Rabs_Ropp.
    rewrite Rabs_pos_eq by (unfold Rdiv; apply Rmult_le_pos; lra).
    apply (Rmult_le_reg_r (INR N)); [exact HN |].
    replace ((INR N - INR k) * IZR rate / INR N * INR N)
      with ((INR N - INR k) * IZR rate) by (field; lra).
    nra.
Qed.

Lemma bin_freq_0 (N : nat) (rate : Z) : (1 <= N)%nat -> bin_freq N rate 0 = 0.
Proof.
  intros HN. unfold bin_freq.
  destruct (Nat.ltb_spec (2 * 0) N) as [_ | H]; [| lia].
  simpl INR. unfold Rdiv. rewrite !Rmult_0_l. reflexivity.
Qed.





(** *** Failures *)

Lemma detect_pitch_empty (lib : library) (rate : Z) :
  detect_pitch lib [] rate = Err ValueError.
Proof. reflexivity. Qed.

Lemma detect_pitch_rate_0 (lib : library) (x : list R) :
  x <> [] -> detect_pitch lib x 0 = Err ZeroDivisionError.
Proof.
  intros Hx. unfold detect_pitch.
  rewrite (fft_nonempty lib _ (windowed_nonempty x Hx)). cbn [bind].
  rewrite py_div_int_zero. reflexivity.
Qed.

Lemma detect_pitch_overflow (lib : library) (x : list R) (rate : Z) :
  x <> [] -> (float_int_limit <= Z.abs rate)%Z ->
  detect_pitch lib x rate = Err OverflowError.
Proof.
  intros Hx Hbig. unfold detect_pitch.
  rewrite (fft_nonempty lib _ (windowed_nonempty x Hx)). cbn [bind].
  rewrite (py_div_int_overflow rate Hbig). reflexivity.
Qed.

(** *** Silence *)

Lemma mul_arrays_zeros (n : nat) (w : list R) :
  length w = n -> mul_arrays (repeat 0 n) w = repeat 0 n.
Proof.
  revert w. induction n as [| n IH]; intros [| y w] H; simpl in *;
    try reflexivity; try discriminate.
  rewrite Rmult_0_l. f_equal. apply IH. lia.
Qed.

Lemma map_repeat {A B : Type} (f : A -> B) (a : A) (n : nat) :
  map f (repeat a n) = repeat (f a) n.
Proof. induction n as [| n IH]; simpl; [reflexivity |]. rewrite IH. reflexivity. Qed.

Lemma magnitudes_zeros (lib : library) (n : nat) :
  library_ok lib -> magnitudes lib (repeat 0 n) = repeat 0 n.
Proof.
  intros (_ & Hz & Ha). unfold magnitudes. rewrite Hz, map_repeat, Ha.
  reflexivity.
Qed.

(** Where all values are equal, [np.argmax] answers 0. *)
Lemma first_max_flat (l : list R) (k : nat) :
  (forall j, nth j l 0 = 0) -> first_max l k -> k = O.
Proof.
  intros Hflat (_ & _ & Hfirst). destruct k as [| k]; [reflexivity |].
  pose proof (Hfirst O (Nat.lt_0_succ k)) as H.
  rewrite !Hflat in H. lra.
Qed.

Lemma argmax_zeros (n : nat) : argmax (repeat 0 n) = O.
Proof.
  destruct n as [| n]; [reflexivity |].
  apply (first_max_flat (repeat 0 (S n))).
  - intros j. destruct (Nat.lt_ge_cases j (S n)) as [Hj | Hj].
    + apply nth_repeat.
    + apply nth_overflow. rewrite repeat_length. exact Hj.
  - apply argmax_first_max. discriminate.
Qed.

Lemma detect_pitch_zeros (lib : library) (N : nat) (rate : Z) :
  library_ok lib -> (1 <= N)%nat -> rate <> 0%Z ->
  (Z.abs rate < float_int_limit)%Z ->
  detect_pitch lib (repeat 0 N) rate = Ok 0.
Proof.
  intros Hlib HN Hrate Hmax.
  assert (Hx : repeat 0 N <> []) by (destruct N; [lia | discriminate]).
  rewrite detect_pitch_peak by assumption.
  rewrite repeat_length.
  rewrite mul_arrays_zeros by apply length_hanning.
  rewrite magnitudes_zeros by exact Hlib.
  rewrite argmax_zeros, bin_freq_0 by exact HN.
  rewrite Rabs_R0. reflexivity.
Qed.





(** *** Short buffers *)

Lemma detect_pitch_one_sample (lib : library) (x : R) (rate : Z) :
  library_ok lib -> rate <> 0%Z -> (Z.abs rate < float_int_limit)%Z ->
  detect_pitch lib [x] rate = Ok 0.
Proof.
  intros Hlib Hrate Hmax.
  rewrite detect_pitch_peak by (assumption || discriminate).
  set (y := mul_arrays [x] (hanning (length [x]))).
  assert (Hy : y <> []) by (apply windowed_nonempty; discriminate).
  pose proof (first_max_argmax lib y Hlib Hy) as (Hk & _).
  rewrite (length_magnitudes lib y Hlib) in Hk.
  unfold y in Hk at 2. rewrite length_windowed in Hk. simpl length in *.
  assert (Hk0 : argmax (magnitudes lib y) = O) by lia.
  rewrite Hk0, bin_freq_0 by lia. rewrite Rabs_R0. reflexivity.
Qed.

(** C4, as stated, fails for a buffer of one sample: the estimator returns
    0 Hz and raises nothing. *)
Lemma detect_pitch_one_sample_no_error :
  detect_pitch exact_library [0.25] 44100 = Ok 0 /\
  forall e, detect_pitch exact_library [0.25] 44100 <> Err e.
Proof.
  assert (H : detect_pitch exact_library [0.25] 44100 = Ok 0)
    by (apply detect_pitch_one_sample;
        [apply exact_library_ok | discriminate | reflexivity]).
  split; [exact H |]. intros e He. rewrite H in He. discriminate.
Qed.

(** C4, amended.  The estimator fails on an empty buffer, with the
    [ValueError] of the transform, whatever the sample rate; on a buffer of
    one sample and a non-zero sample rate of magnitude below [2^1023] it
    does not fail and returns 0 Hz. *)
Theorem detect_pitch_short_buffer (lib : library) (x : R) (rate : Z) :
  library_ok lib ->
  detect_pitch lib [] rate = Err ValueError /\
  (rate <> 0%Z -> (Z.abs rate < max_rate)%Z ->
   detect_pitch lib [x] rate = Ok 0).
Proof.
  intros Hlib. split; [reflexivity |].
  intros Hrate Hmax.
  apply detect_pitch_one_sample; [exact Hlib | exact Hrate |].
  apply below_max_rate, Hmax.
Qed.

Lemma detect_pitch_short_buffer_witness :
  library_ok exact_library /\
  detect_pitch exact_library [] 44100 = Err ValueError /\
  detect_pitch exact_library [0.25] 44100 = Ok 0.
Proof.
  split; [apply exact_library_ok |].
  destruct (detect_pitch_short_buffer exact_library 0.25 44100)
    as [H0 H1]; [apply exact_library_ok |].
  split; [exact H0 |]. apply H1; [discriminate | reflexivity].
Defined.

(** ** One cycle *)


Lemma detect_pitch_returns (lib : library) (x : list R) (rate : Z) :
  library_ok lib -> x <> [] -> (0 < rate)%Z -> (rate < max_rate)%Z ->
  exists f, detect_pitch lib x rate = Ok f /\ 0 <= f <= IZR rate / 2.
Proof.
  intros Hlib Hx Hrate Hmax.
  assert (Hlim : (Z.abs rate < float_int_limit)%Z)
    by (apply below_max_rate; rewrite Z.abs_eq; lia).
  eexists. split.
  - apply detect_pitch_peak; [exact Hlib | exact Hx | lia | exact Hlim].
  - apply Rabs_bin_freq_range; [exact Hrate |].
    set (y := mul_arrays x (hanning (length x))).
    pose proof (first_max_argmax lib y Hlib (windowed_nonempty x Hx)) as (Hk & _).
    rewrite (length_magnitudes lib y Hlib) in Hk.
    unfold y in Hk at 2. rewrite length_windowed in Hk. exact Hk.
Qed.

Lemma get_note_match_nonnegative (f : R) (note : string) (f_t : R) :
  0 <= f -> dict_get NOTES note = Some f_t ->
  exists cents,
    get_note_match (Fin f) note = Ok (f_t, cents) /\
    (cents = NInf \/ exists c, cents = Fin c).
Proof.
  intros Hf H. destruct (Rle_lt_or_eq_dec 0 f Hf) as [Hpos | <-].
  - destruct (get_note_match_of_positive f note f_t Hpos H) as [[_ E] | [_ E]];
      eexists; (split; [exact E |]); [left | right; eexists]; reflexivity.
  - exists NInf. split; [apply get_note_match_at_zero, H | left; reflexivity].
Qed.






(** The page of a cycle whose estimate is 0 Hz. *)
Lemma cycle_at_zero (lib : library) (x : list R) (rate : Z) (note : string)
    (f_t : R) :
  detect_pitch lib x rate = Ok 0 -> dict_get NOTES note = Some f_t ->
  cycle lib x rate note
  = Ok {| meter := {| needle := Fin (-50); xlim := (-50, 50) |};
          status := OFF;
          detected_frequency := 0;
          expected_frequency := f_t;
          cents_off := NInf |}.
Proof.
  intros Hf H. unfold cycle. rewrite Hf. cbn [bind].
  rewrite (get_note_match_at_zero note f_t H). cbn [bind]. reflexivity.
Qed.



(** * Further properties *)

(** ** [detect_pitch]: failures *)

(** X1.  With a transform routine that returns one bin per sample,
    [detect_pitch] raises in three cases only: [ValueError] on an empty
    buffer, whatever the sample rate; on a non-empty buffer,
    [OverflowError] when the sample rate is an int too large to be
    converted to a float (magnitude [2^1024 - 2^970] or more) and
    [ZeroDivisionError] when it is 0. *)
Theorem detect_pitch_failures (lib : library) (x : list R) (rate : Z)
    (e : exception) :
  library_ok lib ->
  (detect_pitch lib x rate = Err e <->
   (x = [] /\ e = ValueError) \/
   (x <> [] /\ (float_int_limit <= Z.abs rate)%Z /\ e = OverflowError) \/
   (x <> [] /\ rate = 0%Z /\ e = ZeroDivisionError)).
Proof.
  intros Hlib. split.
  - intros H. destruct x as [| a x'].
    + left. split; [reflexivity |].
      rewrite detect_pitch_empty in H. congruence.
    + right. assert (Hx : a :: x' <> []) by discriminate.
      destruct (Z.le_gt_cases float_int_limit (Z.abs rate)) as [Hbig | Hsmall].
      * left. rewrite (detect_pitch_overflow lib _ rate Hx Hbig) in H.
        repeat split; [exact Hx | exact Hbig | congruence].
      * right. destruct (Z.eq_dec rate 0) as [-> | Hr].
        -- rewrite (detect_pitch_rate_0 lib _ Hx) in H.
           repeat split; congruence.
        -- rewrite detect_pitch_peak in H by assumption. discriminate.
  - intros [[-> ->] | [(Hx & Hbig & ->) | (Hx & -> & ->)]].
    + reflexivity.
    + apply detect_pitch_overflow; assumption.
    + apply detect_pitch_rate_0, Hx.
Qed.

Lemma detect_pitch_failures_witness :
  library_ok exact_library /\
  (detect_pitch exact_library [1; 2] 0 = Err ZeroDivisionError <->
   ([1; 2] = [] /\ ZeroDivisionError = ValueError) \/
   ([1; 2] <> [] /\ (float_int_limit <= Z.abs 0)%Z
    /\ ZeroDivisionError = OverflowError) \/
   ([1; 2] <> [] /\ 0%Z = 0%Z /\ ZeroDivisionError = ZeroDivisionError)).
Proof.
  split; [apply exact_library_ok |].
  apply (detect_pitch_failures exact_library [1; 2] 0 ZeroDivisionError).
  apply exact_library_ok.
Defined.

(** ** [detect_pitch]: the ends of the buffer *)

Lemma spec_hann_first (N : nat) : spec_hann N 0 = 0.
Proof.
  unfold spec_hann. simpl INR.
  replace (2 * PI * 0 / (INR N - 1)) with 0 by (unfold Rdiv; ring).
  rewrite cos_0. lra.
Qed.

Lemma spec_hann_last (N : nat) : (2 <= N)%nat -> spec_hann N (N - 1) = 0.
Proof.
  intros HN. unfold spec_hann.
  assert (H2 : 2 <= INR N) by (apply (le_INR 2); exact HN).
  rewrite minus_INR by lia. simpl INR at 2.
  replace (2 * PI * (INR N - 1) / (INR N - 1)) with (2 * PI) by (field; lra).
  rewrite cos_2PI. lra.
Qed.

(** Two buffers that differ in the first and the last sample only have the
    same windowed buffer. *)
Lemma windowed_ignores_ends (x x' : list R) :
  length x = length x' -> (2 <= length x)%nat ->
  (forall i, (0 < i)%nat -> (i < length x - 1)%nat -> nth i x 0 = nth i x' 0) ->
  mul_arrays x (hanning (length x)) = mul_arrays x' (hanning (length x')).
Proof.
  intros Hlen HN Hmid. apply (nth_ext _ _ 0 0).
  - rewrite !length_windowed. exact Hlen.
  - intros i Hi. rewrite length_windowed in Hi.
    rewrite !nth_mul_arrays
      by (rewrite ?length_hanning; (reflexivity || lia)).
    rewrite <- Hlen. rewrite nth_hanning by lia.
    destruct (Nat.eq_dec i 0) as [-> | Hi0].
    { rewrite spec_hann_first. lra. }
    destruct (Nat.eq_dec i (length x - 1)) as [-> | Hil].
    { rewrite spec_hann_last by exact HN. lra. }
    rewrite (Hmid i) by lia. reflexivity.
Qed.

Lemma detect_pitch_of_windowed (lib : library) (x x' : list R) (rate : Z) :
  mul_arrays x (hanning (length x)) = mul_arrays x' (hanning (length x')) ->
  detect_pitch lib x rate = detect_pitch lib x' rate.
Proof. intros H. unfold detect_pitch. rewrite H. reflexivity. Qed.

(** X5.  The Hann window is zero at both ends, so on a buffer of two or more
    samples the first and the last sample have no influence on the result of
    [detect_pitch]. *)
Theorem detect_pitch_ignores_ends (lib : library) (x x' : list R) (rate : Z) :
  length x = length x' -> (2 <= length x)%nat ->
  (forall i, (0 < i)%nat -> (i < length x - 1)%nat -> nth i x 0 = nth i x' 0) ->
  detect_pitch lib x rate = detect_pitch lib x' rate.
Proof.
  intros Hlen HN Hmid.
  apply detect_pitch_of_windowed, windowed_ignores_ends; assumption.
Qed.

Lemma detect_pitch_ignores_ends_witness :
  detect_pitch exact_library [7; 1; 2; 9] 44100
  = detect_pitch exact_library [0; 1; 2; 0] 44100.
Proof.
  apply (detect_pitch_ignores_ends exact_library [7; 1; 2; 9] [0; 1; 2; 0] 44100).
  - reflexivity.
  - simpl. lia.
  - intros i H0 H1. simpl in H1.
    destruct i as [| [| [| i]]]; try lia; reflexivity.
Defined.

Lemma detect_pitch_pair (lib : library) (a b : R) (rate : Z) :
  library_ok lib -> rate <> 0%Z -> (Z.abs rate < float_int_limit)%Z ->
  detect_pitch lib [a; b] rate = Ok 0.
Proof.
  intros Hlib Hrate Hmax.
  rewrite (detect_pitch_of_windowed lib [a; b] (repeat 0 2) rate).
  - apply detect_pitch_zeros; [exact Hlib | lia | exact Hrate | exact Hmax].
  - apply windowed_ignores_ends.
    + reflexivity.
    + simpl. lia.
    + intros i H0 H1. simpl in H1. lia.
Qed.

(** X6.  A buffer of exactly two samples gives 0 Hz whatever the samples
    are, for every non-zero sample rate of magnitude below [2^1023]: both
    samples are weighted by zero. *)
Theorem detect_pitch_two_samples (lib : library) (a b : R) (rate : Z) :
  library_ok lib -> rate <> 0%Z -> (Z.abs rate < max_rate)%Z ->
  detect_pitch lib [a; b] rate = Ok 0.
Proof.
  intros Hlib Hrate Hmax.
  apply detect_pitch_pair; [exact Hlib | exact Hrate |].
  apply below_max_rate, Hmax.
Qed.

Lemma detect_pitch_two_samples_witness :
  library_ok exact_library /\ 44100%Z <> 0%Z /\
  (Z.abs 44100 < max_rate)%Z /\
  detect_pitch exact_library [0.5; -0.5] 44100 = Ok 0.
Proof.
  split; [apply exact_library_ok |]. split; [discriminate |].
  split; [reflexivity |].
  apply (detect_pitch_two_samples exact_library 0.5 (-0.5) 44100);
    [apply exact_library_ok | discriminate | reflexivity].
Defined.

(** ** [get_note_match]: octaves and the way back *)









(** ** Far from the target *)

Lemma log2_half : log2 (/ 2) = -1.
Proof.
  unfold log2. rewrite ln_Rinv by lra. pose proof ln2_pos. field. lra.
Qed.

Lemma log2_nondecreasing (x y : R) : 0 < x -> x <= y -> log2 x <= log2 y.
Proof.
  intros Hx [Hlt | <-]; [left; apply log2_increasing; assumption | right; reflexivity].
Qed.

(** X23.  A positive frequency at least an octave away from the target of a
    note of the table (twice the target or more, or half of it or less) gets
    the status OFF; its deviation is minus infinity or at least 1200 cents
    in absolute value.  An estimate that has locked onto a harmonic of the
    string is never shown as in tune. *)
Theorem octave_errors_are_off (f : R) (note : string) (f_t : R) :
  0 < f -> dict_get NOTES note = Some f_t ->
  2 * f_t <= f \/ f <= f_t / 2 ->
  exists c : float,
    get_note_match (Fin f) note = Ok (f_t, c) /\
    (c = NInf \/ exists r, c = Fin r /\ 1200 <= Rabs r) /\
    status_of c = OFF.
Proof.
  intros Hf H Hfar. pose proof (NOTES_positive _ _ H) as Ht.
  assert (Hr : 0 < f / f_t) by (apply Rdiv_lt_0_compat; assumption).
  destruct (get_note_match_of_positive f note f_t Hf H) as [[_ E] | [_ E]].
  { exists NInf. split; [exact E |]. split; [left; reflexivity | reflexivity]. }
  exists (Fin (1200 * log2 (f / f_t))). split; [exact E |].
  assert (Habs : 1200 <= Rabs (1200 * log2 (f / f_t))).
  { destruct Hfar as [Hup | Hdown].
    - assert (Hq : 2 <= f / f_t).
      { apply (Rmult_le_reg_r f_t); [exact Ht |].
        replace (f / f_t * f_t) with f by (field; lra). lra. }
      pose proof (log2_nondecreasing 2 (f / f_t)) as Hl.
      rewrite log2_2 in Hl. specialize (Hl ltac:(lra) Hq).
      rewrite Rabs_pos_eq by lra. lra.
    - assert (Hq : f / f_t <= / 2).
      { apply (Rmult_le_reg_r f_t); [exact Ht |].
        replace (f / f_t * f_t) with f by (field; lra). lra. }
      pose proof (log2_nondecreasing (f / f_t) (/ 2) Hr Hq) as Hl.
      rewrite log2_half in Hl.
      unfold Rabs. destruct (Rcase_abs (1200 * log2 (f / f_t))); lra. }
  split; [right; eexists; split; [reflexivity | exact Habs] |].
  apply status_of_fin_off. lra.
Qed.

Lemma octave_errors_are_off_witness :
  0 < 220 /\ dict_get NOTES "A2" = Some 110.00 /\
  exists c : float,
    get_note_match (Fin 220) "A2" = Ok (110.00, c) /\
    (c = NInf \/ exists r, c = Fin r /\ 1200 <= Rabs r) /\
    status_of c = OFF.
Proof.
  split; [lra |]. split; [reflexivity |].
  apply (octave_errors_are_off 220 "A2" 110.00); [lra | reflexivity | lra].
Defined.

(** ** One cycle, as a whole *)



(** X16.  With the transform routine as assumed, a cycle raises in four
    cases only, in this order of precedence: [ValueError] on an empty
    buffer; [OverflowError] on a sample rate too large to be converted to a
    float; [ZeroDivisionError] on a sample rate of 0; [KeyError] on a note
    that is not in the table.  The estimator runs first, so its failures
    hide an unknown note. *)
Theorem cycle_failures (lib : library) (x : list R) (rate : Z)
    (note : string) (e : exception) :
  library_ok lib ->
  (cycle lib x rate note = Err e <->
   (x = [] /\ e = ValueError) \/
   (x <> [] /\ (float_int_limit <= Z.abs rate)%Z /\ e = OverflowError) \/
   (x <> [] /\ rate = 0%Z /\ e = ZeroDivisionError) \/
   (x <> [] /\ rate <> 0%Z /\ (Z.abs rate < float_int_limit)%Z /\
    dict_get NOTES note = None /\ e = KeyError note)).
Proof.
  intros Hlib. unfold cycle. destruct x as [| a x'].
  { rewrite detect_pitch_empty. cbn [bind]. split.
    - intros [= <-]. left. split; reflexivity.
    - intros [[_ ->] | [(Hx & _) | [(Hx & _) | (Hx & _)]]];
        [reflexivity | congruence | congruence | congruence]. }
  assert (Hx : a :: x' <> []) by discriminate.
  destruct (Z.le_gt_cases float_int_limit (Z.abs rate)) as [Hbig | Hsmall].
  { rewrite (detect_pitch_overflow lib _ rate Hx Hbig). cbn [bind]. split.
    - intros [= <-]. right. left. repeat split; assumption.
    - intros [[Hnil _] | [(_ & _ & ->) | [(_ & -> & _) | (_ & _ & Hlt & _)]]].
      + discriminate Hnil.
      + reflexivity.
      + exfalso. revert Hbig. apply Z.lt_nge. reflexivity.
      + exfalso. revert Hbig. apply Z.lt_nge. exact Hlt. }
  destruct (Z.eq_dec rate 0) as [-> | Hr].
  { rewrite (detect_pitch_rate_0 lib _ Hx). cbn [bind]. split.
    - intros [= <-]. right. right. left. repeat split. exact Hx.
    - intros [[Hnil _] | [(_ & Hbig & _) | [(_ & _ & ->) | (_ & Hne & _)]]].
      + discriminate Hnil.
      + exfalso. revert Hbig. apply Z.lt_nge. exact Hsmall.
      + reflexivity.
      + congruence. }
  rewrite detect_pitch_peak by assumption.
  cbn [bind]. unfold get_note_match, dict_index.
  destruct (dict_get NOTES note) as [f_t |]; cbn [bind].
  - split; [discriminate |].
    intros [[Hnil _] | [(_ & Hbig & _) | [(_ & H0 & _) | (_ & _ & _ & Hnone & _)]]].
    + discriminate Hnil.
    + exfalso. revert Hbig. apply Z.lt_nge. exact Hsmall.
    + congruence.
    + discriminate Hnone.
  - split.
    + intros [= <-]. right. right. right. repeat split; assumption.
    + intros [[Hnil _] | [(_ & Hbig & _) | [(_ & H0 & _) | (_ & _ & _ & _ & ->)]]].
      * discriminate Hnil.
      * exfalso. revert Hbig. apply Z.lt_nge. exact Hsmall.
      * congruence.
      * reflexivity.
Qed.

Lemma cycle_failures_witness :
  library_ok exact_library /\
  cycle exact_library [1; 2] 44100 "C4" = Err (KeyError "C4").
Proof.
  split; [apply exact_library_ok |].
  apply (cycle_failures exact_library [1; 2] 44100 "C4" (KeyError "C4"));
    [apply exact_library_ok |].
  right. right. right.
  split; [discriminate |]. split; [discriminate |].
  split; [reflexivity |]. split; reflexivity.
Defined.

(** X17.  Whenever the estimate is 0 Hz (silence, or a buffer too short to
    resolve anything) and the note is in the table, the cycle shows no
    error: the deviation is minus infinity, the needle rests at -50 and the
    status is OFF. *)
Theorem cycle_zero_hertz (lib : library) (x : list R) (rate : Z)
    (note : string) (f_t : R) :
  detect_pitch lib x rate = Ok 0 -> dict_get NOTES note = Some f_t ->
  cycle lib x rate note
  = Ok {| meter := {| needle := Fin (-50); xlim := (-50, 50) |};
          status := OFF;
          detected_frequency := 0;
          expected_frequency := f_t;
          cents_off := NInf |}.
Proof. apply cycle_at_zero. Qed.

Lemma cycle_zero_hertz_witness :
  detect_pitch exact_library [0.5; -0.5] 22050 = Ok 0 /\
  dict_get NOTES "E2" = Some 82.41 /\
  cycle exact_library [0.5; -0.5] 22050 "E2"
  = Ok {| meter := {| needle := Fin (-50); xlim := (-50, 50) |};
          status := OFF;
          detected_frequency := 0;
          expected_frequency := 82.41;
          cents_off := NInf |}.
Proof.
  assert (H : detect_pitch exact_library [0.5; -0.5] 22050 = Ok 0)
    by (apply detect_pitch_pair;
        [apply exact_library_ok | discriminate | reflexivity]).
  split; [exact H |]. split; [reflexivity |].
  apply (cycle_zero_hertz exact_library [0.5; -0.5] 22050 "E2" 82.41);
    [exact H | reflexivity].
Defined.

(** ** The controls and the recording loop *)

Lemma select_note_cases (pressed : string -> bool) (keys : list string)
    (selected : string) :
  select_note pressed keys selected = selected \/
  In (select_note pressed keys selected) keys.
Proof.
  unfold select_note. revert selected.
  induction keys as [| k keys IH]; intros selected; simpl; [left; reflexivity |].
  destruct (pressed k).
  - destruct (IH k) as [-> | H]; [right; left; reflexivity | right; right; exact H].
  - destruct (IH selected) as [-> | H]; [left; reflexivity | right; right; exact H].
Qed.

Lemma select_note_untouched (pressed : string -> bool) (keys : list string)
    (selected : string) :
  (forall k, In k keys -> pressed k = false) ->
  select_note pressed keys selected = selected.
Proof.
  unfold select_note. revert selected.
  induction keys as [| k keys IH]; intros selected Hnone; simpl; [reflexivity |].
  rewrite (Hnone k) by (left; reflexivity).
  apply IH. intros k' Hk'. apply Hnone. right. exact Hk'.
Qed.

Lemma select_note_at_most (pressed : string -> bool) (keys : list string)
    (selected n : string) :
  (forall m, In m keys -> pressed m = true -> m = n) ->
  select_note pressed keys selected = selected \/
  select_note pressed keys selected = n.
Proof.
  unfold select_note. revert selected.
  induction keys as [| k keys IH]; intros selected Honly; simpl;
    [left; reflexivity |].
  assert (Honly' : forall m, In m keys -> pressed m = true -> m = n)
    by (intros m Hm; apply Honly; right; exact Hm).
  destruct (pressed k) eqn:Ek.
  - assert (k = n) by (apply Honly; [left; reflexivity | exact Ek]). subst k.
    right. destruct (IH n Honly') as [H | H]; exact H.
  - apply IH, Honly'.
Qed.

Lemma select_note_only (pressed : string -> bool) (keys : list string)
    (selected n : string) :
  In n keys -> pressed n = true ->
  (forall m, In m keys -> pressed m = true -> m = n) ->
  select_note pressed keys selected = n.
Proof.
  revert selected.
  induction keys as [| k keys IH]; intros selected Hin Hn Honly;
    [contradiction |].
  assert (Honly' : forall m, In m keys -> pressed m = true -> m = n)
    by (intros m Hm; apply Honly; right; exact Hm).
  unfold select_note; simpl. destruct (pressed k) eqn:Ek.
  - assert (k = n) by (apply Honly; [left; reflexivity | exact Ek]). subst k.
    destruct (select_note_at_most pressed keys n n Honly') as [H | H]; exact H.
  - destruct Hin as [-> | Hin]; [congruence |].
    apply (IH selected Hin Hn Honly').
Qed.

Lemma note_keys_in_NOTES (n : string) :
  In n note_keys -> exists f_t, dict_get NOTES n = Some f_t.
Proof.
  intros Hin. simpl in Hin.
  repeat (destruct Hin as [<- | Hin]; [eexists; reflexivity |]).
  contradiction.
Qed.

Lemma controls_selected_note (pressed : string -> bool) (start stop : bool)
    (found : stored) :
  selected_note (controls pressed start stop found)
  = select_note pressed note_keys
      match stored_note found with Some note => note | None => "E2"%string end.
Proof. reflexivity. Qed.

Lemma reachable_note_key (st : session) :
  reachable st -> In (selected_note st) note_keys.
Proof.
  intros Hr. induction Hr as [pressed start stop | st pressed start stop _ IH];
    rewrite controls_selected_note; cbn [stored_note store].
  - destruct (select_note_cases pressed note_keys "E2") as [-> | H];
      [left; reflexivity | exact H].
  - destruct (select_note_cases pressed note_keys (selected_note st))
      as [-> | H]; [exact IH | exact H].
Qed.

(** X18.  After any number of runs of the script, whatever buttons were
    pressed in each, the selected note is a key of the note table: the
    lookup of [get_note_match] cannot fail on it. *)
Theorem reachable_note_known (st : session) :
  reachable st ->
  exists f_t, dict_get NOTES (selected_note st) = Some f_t /\
              forall a e, get_note_match a (selected_note st) <> Err e.
Proof.
  intros Hr.
  destruct (note_keys_in_NOTES _ (reachable_note_key st Hr)) as [f_t H].
  exists f_t. split; [exact H |].
  intros a e He. rewrite (get_note_match_known a _ f_t H) in He.
  discriminate He.
Qed.

Lemma reachable_note_known_witness :
  reachable (controls (String.eqb "G3") true false
               {| stored_recording := None; stored_note := None |}) /\
  exists f_t,
    dict_get NOTES
      (selected_note (controls (String.eqb "G3") true false
                        {| stored_recording := None; stored_note := None |}))
    = Some f_t.
Proof.
  split; [apply reach_first |].
  destruct (reachable_note_known
              (controls (String.eqb "G3") true false
                 {| stored_recording := None; stored_note := None |}))
    as (f_t & H & _); [apply reach_first |].
  exists f_t. exact H.
Defined.

(** X19.  The selection persists and follows the buttons: when no note
    button is pressed the selected note is the one found in the session
    (E2 on a fresh session); when exactly one note button is pressed, its
    note becomes the selected one.  The recording buttons play no part. *)
Theorem controls_selection (pressed : string -> bool) (start stop : bool)
    (found : stored) :
  ((forall k, In k note_keys -> pressed k = false) ->
   selected_note (controls pressed start stop found)
   = match stored_note found with Some note => note | None => "E2"%string end)
  /\
  (forall n, In n note_keys -> pressed n = true ->
     (forall m, In m note_keys -> pressed m = true -> m = n) ->
     selected_note (controls pressed start stop found) = n).
Proof.
  rewrite controls_selected_note. split.
  - apply select_note_untouched.
  - intros n. apply select_note_only.
Qed.

Lemma recording_loop_listening (lib : library) (st : session) (rate : Z)
    (recorded : nat -> list R) (f_t : R) :
  library_ok lib ->
  is_recording st = true -> (0 < rate)%Z -> (rate < max_rate)%Z ->
  dict_get NOTES (selected_note st) = Some f_t ->
  (forall i, recorded i <> []) ->
  forall fuel turn shown,
    exists shown',
      recording_loop fuel lib st rate recorded turn shown = Listening shown' /\
      length shown' = (fuel + length shown)%nat.
Proof.
  intros Hlib Hrec Hrate Hmax Hnote Hbuf.
  induction fuel as [| fuel IH]; intros turn shown; simpl; rewrite Hrec.
  - exists shown. split; reflexivity.
  - assert (Hc : exists p,
               cycle lib (recorded turn) rate (selected_note st) = Ok p).
    { destruct (detect_pitch_returns lib _ rate Hlib (Hbuf turn) Hrate Hmax)
        as (f & Hf & Hrange).
      destruct (get_note_match_nonnegative f _ f_t (proj1 Hrange) Hnote)
        as (cents & Hm & _).
      eexists. unfold cycle. rewrite Hf. cbn [bind]. rewrite Hm. reflexivity. }
    destruct Hc as [p ->].
    destruct (IH (S turn) (p :: shown)) as (shown' & Hl & Hlen).
    exists shown'. split; [exact Hl |]. rewrite Hlen. simpl. lia.
Qed.

(** X20.  Once a run of the script has set the recording flag, the recording
    loop does not end by itself: as long as every recorded buffer is
    non-empty (the sample rate being positive and below [2^1023], and the
    transform routine as assumed), after any number of turns it is still
    running, has raised nothing, and has shown one page per turn.  The body
    never clears the flag, and the selected note of a reachable session is
    always known. *)
Theorem recording_loop_never_ends (lib : library) (st : session) (rate : Z)
    (recorded : nat -> list R) (fuel : nat) :
  library_ok lib ->
  reachable st -> is_recording st = true ->
  (0 < rate)%Z -> (rate < max_rate)%Z ->
  (forall i, recorded i <> []) ->
  exists shown,
    recording_loop fuel lib st rate recorded 0 [] = Listening shown /\
    length shown = fuel.
Proof.
  intros Hlib Hr Hrec Hrate Hmax Hbuf.
  destruct (note_keys_in_NOTES _ (reachable_note_key st Hr)) as [f_t Hnote].
  destruct (recording_loop_listening lib st rate recorded f_t Hlib Hrec Hrate
              Hmax Hnote Hbuf fuel 0%nat []) as (shown & Hl & Hlen).
  exists shown. split; [exact Hl |]. rewrite Hlen. simpl. lia.
Qed.

Lemma recording_loop_never_ends_witness :
  exists shown,
    recording_loop 3 exact_library
      (controls (String.eqb "A2") true false
         {| stored_recording := None; stored_note := None |})
      44100 (fun _ => [0; 1; 0; -1]) 0 []
    = Listening shown /\ length shown = 3%nat.
Proof.
  apply (recording_loop_never_ends exact_library
           (controls (String.eqb "A2") true false
              {| stored_recording := None; stored_note := None |})
           44100 (fun _ => [0; 1; 0; -1]) 3).
  - apply exact_library_ok.
  - apply reach_first.
  - reflexivity.
  - lia.
  - reflexivity.
  - intros i. discriminate.
Defined.

(** X21.  When the recording flag is not set the loop body is never
    entered, so nothing is recorded or analysed; the flag is not set on a
    fresh session unless Start is pressed, and never when Stop is. *)
Theorem not_recording_is_ready (lib : library) (pressed : string -> bool)
    (start stop : bool) (found : stored) (rate : Z)
    (recorded : nat -> list R) (fuel : nat) :
  stop = true \/ (start = false /\ stored_recording found = None) ->
  recording_loop fuel lib (controls pressed start stop found) rate recorded 0 []
  = Ready [].
Proof.
  intros H.
  assert (Hoff : is_recording (controls pressed start stop found) = false).
  { unfold controls; cbn [is_recording].
    destruct H as [-> | [-> ->]]; [reflexivity |].
    destruct stop; reflexivity. }
  destruct fuel; cbn [recording_loop]; rewrite Hoff; reflexivity.
Qed.

Lemma not_recording_is_ready_witness :
  recording_loop 5 exact_library
    (controls (fun _ => false) true true
       {| stored_recording := Some true; stored_note := Some "B3"%string |})
    44100 (fun _ => [0; 1; 0; -1]) 0 []
  = Ready [].
Proof.
  apply (not_recording_is_ready exact_library (fun _ => false) true true
           {| stored_recording := Some true; stored_note := Some "B3"%string |}
           44100 (fun _ => [0; 1; 0; -1]) 5).
  left. reflexivity.
Defined.

(** ** The selected bin and the exact transform *)


